(** * Sistema Monitor: the sampling and cache-refresh core of backend/server.js

    A shallow embedding of the metrics core of the Express server: the CPU
    delta sampler ([cpuAverage], [getCPUUsage]), the memory reader
    ([getMemoryUsage]), the process collector ([getProcesses]), the cache
    refresh ([updateSystemCache]) and the two cached routes.

    JavaScript numbers.  The code is written once, over an interface
    [JSNumber] of the arithmetic it uses, and the interface has two
    instances:
    - [binary64]: IEEE 754 double precision, the numbers JavaScript has,
      on Rocq's primitive floats.  The scenarios and the failing inputs
      are evaluated here, bit for bit, and the clamp of the CPU sampler is
      proved here for every double.
    - [exact]: the extended rationals (a rational, NaN, +Infinity,
      -Infinity).  It keeps the special values and the rules that produce
      them (x/0, 0/0, NaN propagation) and drops the rounding of each
      operation and the sign of zero.  The general theorems about the
      formulas of the sampler and of the memory reader are proved on this
      instance; they speak about the arithmetic of the code, not about the
      last bit of a double.
    What does not depend on numbers (the process list, the cache, the
    routes) is proved for every instance.

    Integers that the code only adds small constants to or compares
    (clock values in milliseconds, record ids) are kept in [Z]: they are far
    below 2^53, where doubles are exact.

    The outside world (os.cpus(), os.totalmem(), os.freemem(), the result of
    exec, Date.now(), Math.random(), process.platform) is passed to each
    function as explicit arguments, one per call the source makes. *)

From Stdlib Require Import ZArith QArith Qabs Qround Qreduction Lia List Bool Morphisms.
From Stdlib Require Import String Ascii Floats.
From Stdlib Require Qcanon.
Import ListNotations.

Set Implicit Arguments.

(* ================================================================= *)
(** * JavaScript numbers *)

(** The operations of the Number type that server.js uses. *)
Class JSNumber (num : Type) : Type := {
  ofQ : Q -> num;                   (* a numeric literal, or an integer reading *)
  nadd : num -> num -> num;         (* a + b *)
  nsub : num -> num -> num;         (* a - b *)
  nmul : num -> num -> num;         (* a * b *)
  ndiv : num -> num -> num;         (* a / b *)
  Math_floor : num -> num;
  Math_round : num -> num;
  Math_max : num -> num -> num;
  Math_min : num -> num -> num;
  ToBoolean : num -> bool           (* truthiness, as used by [x || y] *)
}.

Declare Scope js_scope.
Delimit Scope js_scope with js.
Infix "+" := nadd : js_scope.
Infix "-" := nsub : js_scope.
Infix "*" := nmul : js_scope.
Infix "/" := ndiv : js_scope.

Definition ofZ {num} `{JSNumber num} (z : Z) : num := ofQ (inject_Z z).

(** [a || b] on numbers. *)
Definition orElse {num} `{JSNumber num} (a b : num) : num :=
  if ToBoolean a then a else b.

(* ----------------------------------------------------------------- *)
(** ** The exact instance: extended rationals *)

Inductive xnum : Type :=
| XNaN : xnum
| XInf : bool -> xnum         (* [XInf false] is +Infinity, [XInf true] is -Infinity *)
| XFin : Q -> xnum.           (* a finite value, kept in lowest terms *)

Definition Qneg_bool (q : Q) : bool := negb (Qle_bool 0 q).
Definition Qzero_bool (q : Q) : bool := Qeq_bool q 0.

Definition xadd (a b : xnum) : xnum :=
  match a, b with
  | XNaN, _ | _, XNaN => XNaN
  | XInf s, XInf t => if Bool.eqb s t then XInf s else XNaN
  | XInf s, XFin _ | XFin _, XInf s => XInf s
  | XFin p, XFin q => XFin (Qred (p + q))
  end.

Definition xsub (a b : xnum) : xnum :=
  match a, b with
  | XNaN, _ | _, XNaN => XNaN
  | XInf s, XInf t => if Bool.eqb s t then XNaN else XInf s
  | XInf s, XFin _ => XInf s
  | XFin _, XInf s => XInf (negb s)
  | XFin p, XFin q => XFin (Qred (p - q))
  end.

Definition xmul (a b : xnum) : xnum :=
  match a, b with
  | XNaN, _ | _, XNaN => XNaN
  | XInf s, XInf t => XInf (xorb s t)
  | XInf s, XFin q | XFin q, XInf s =>
      if Qzero_bool q then XNaN else XInf (xorb s (Qneg_bool q))
  | XFin p, XFin q => XFin (Qred (p * q))
  end.

(** A zero divisor counts as +0: every zero the code divides by is the
    difference of two equal values or the rounding of a non-negative one. *)
Definition xdiv (a b : xnum) : xnum :=
  match a, b with
  | XNaN, _ | _, XNaN => XNaN
  | XInf _, XInf _ => XNaN
  | XInf s, XFin q => XInf (xorb s (Qneg_bool q))
  | XFin _, XInf _ => XFin 0
  | XFin p, XFin q =>
      if Qzero_bool q
      then (if Qzero_bool p then XNaN else XInf (Qneg_bool p))
      else XFin (Qred (p / q))
  end.

Definition xfloor (a : xnum) : xnum :=
  match a with
  | XFin q => XFin (inject_Z (Qfloor q))
  | _ => a
  end.

(** Math.round rounds to the nearest integer, halves towards +Infinity. *)
Definition xround (a : xnum) : xnum :=
  match a with
  | XFin q => XFin (inject_Z (Qfloor (q + (1 # 2))))
  | _ => a
  end.

Definition xmax (a b : xnum) : xnum :=
  match a, b with
  | XNaN, _ | _, XNaN => XNaN
  | XInf false, _ | _, XInf false => XInf false
  | XInf true, x | x, XInf true => x
  | XFin p, XFin q => if Qle_bool p q then XFin q else XFin p
  end.

Definition xmin (a b : xnum) : xnum :=
  match a, b with
  | XNaN, _ | _, XNaN => XNaN
  | XInf true, _ | _, XInf true => XInf true
  | XInf false, x | x, XInf false => x
  | XFin p, XFin q => if Qle_bool p q then XFin p else XFin q
  end.

Definition xtruthy (a : xnum) : bool :=
  match a with
  | XNaN => false
  | XInf _ => true
  | XFin q => negb (Qzero_bool q)
  end.

#[export] Instance exact : JSNumber xnum := {
  ofQ q := XFin (Qred q);
  nadd := xadd; nsub := xsub; nmul := xmul; ndiv := xdiv;
  Math_floor := xfloor; Math_round := xround;
  Math_max := xmax; Math_min := xmin;
  ToBoolean := xtruthy
}.



(* ----------------------------------------------------------------- *)
(** ** The binary64 instance: IEEE 754 doubles *)

(** The double nearest to the rational [q] (ties to even): the quotient is
    taken with more than 64 significant bits and a sticky last bit, then
    rounded once by [binary_normalize]. *)
Definition Q2SF (q : Q) : spec_float :=
  let n := Qnum q in
  let d := Zpos (Qden q) in
  match n with
  | Z0 => S754_zero false
  | _ =>
      let a := Z.abs n in
      let k := Z.max 0 (Z.log2_up d - Z.log2 a + 64) in
      let scaled := (a * 2 ^ k)%Z in
      let quo := (scaled / d)%Z in
      let sticky := if (scaled mod d =? 0)%Z then 0%Z else 1%Z in
      binary_normalize prec emax (Z.sgn n * (2 * quo + sticky)) (- k - 1) false
  end.

Definition f64_ofQ (q : Q) : float := SF2Prim (Q2SF q).

Definition f64_ofZ (z : Z) : float :=
  SF2Prim (binary_normalize prec emax z 0 false).

Definition f64_signed_zero (negative : bool) : float :=
  if negative then neg_zero else zero.

(** Math.floor: the value m * 2^e of a finite double with e < 0 is cut to
    an integer in [Z]; with e >= 0 it is an integer already. *)
Definition f64_floor (x : float) : float :=
  match Prim2SF x with
  | S754_finite s m e =>
      if (0 <=? e)%Z then x
      else f64_ofZ (cond_Zopp s (Zpos m) / 2 ^ (- e))
  | _ => x
  end.

(** Math.round: floor(x + 1/2) computed exactly; a result of zero keeps
    the sign of the argument. *)
Definition f64_round (x : float) : float :=
  match Prim2SF x with
  | S754_finite s m e =>
      if (0 <=? e)%Z then x
      else
        let r := ((2 * cond_Zopp s (Zpos m) + 2 ^ (- e)) / 2 ^ (- e + 1))%Z in
        if (r =? 0)%Z then f64_signed_zero s else f64_ofZ r
  | _ => x
  end.

Definition f64_max (x y : float) : float :=
  if PrimFloat.is_nan x || PrimFloat.is_nan y then nan
  else if PrimFloat.ltb x y then y
  else if PrimFloat.ltb y x then x
  else if PrimFloat.is_zero x && get_sign x then y else x.

Definition f64_min (x y : float) : float :=
  if PrimFloat.is_nan x || PrimFloat.is_nan y then nan
  else if PrimFloat.ltb x y then x
  else if PrimFloat.ltb y x then y
  else if PrimFloat.is_zero x && negb (get_sign x) then y else x.

Definition f64_truthy (x : float) : bool :=
  negb (PrimFloat.is_nan x || PrimFloat.is_zero x).

#[export] Instance binary64 : JSNumber float := {
  ofQ := f64_ofQ;
  nadd := PrimFloat.add; nsub := PrimFloat.sub;
  nmul := PrimFloat.mul; ndiv := PrimFloat.div;
  Math_floor := f64_floor; Math_round := f64_round;
  Math_max := f64_max; Math_min := f64_min;
  ToBoolean := f64_truthy
}.

(** [x] is a double between [lo] and [hi] (false for NaN). *)
Definition f64_between (lo hi x : float) : bool :=
  PrimFloat.leb lo x && PrimFloat.leb x hi.

(* ================================================================= *)
(** * The CPU sampler and the memory reader *)

(** One entry of os.cpus(): the [times] object, in milliseconds. *)
Record CpuTimes : Type := mkCpuTimes {
  user : Z; nice : Z; sys : Z; idle : Z; irq : Z
}.

Section Sampling.
Context {num : Type} `{JSNumber num}.
Local Open Scope js_scope.

Record Measure : Type := mkMeasure { m_idle : num; m_total : num }.

(** cpuAverage(): [cpus] is what os.cpus() returns at the call.  The inner
    loop adds the fields of [times] in their enumeration order. *)
Definition cpuAverage (cpus : list CpuTimes) : Measure :=
  let acc :=
    fold_left
      (fun (acc : num * num) (cpu : CpuTimes) =>
         let '(totalIdle, totalTick) := acc in
         let totalTick :=
           totalTick + ofZ (user cpu) + ofZ (nice cpu) + ofZ (sys cpu)
           + ofZ (idle cpu) + ofZ (irq cpu) in
         let totalIdle := totalIdle + ofZ (idle cpu) in
         (totalIdle, totalTick))
      cpus (ofZ 0, ofZ 0) in
  let '(totalIdle, totalTick) := acc in
  let len := ofZ (Z.of_nat (List.length cpus)) in
  {| m_idle := totalIdle / len; m_total := totalTick / len |}.

(** getCPUUsage(): [cpusStart] is the reading taken at the call,
    [cpusEnd] the one taken by the timer callback a second later; the
    value is what the promise resolves to. *)
Definition getCPUUsage (cpusStart cpusEnd : list CpuTimes) : num :=
  let startMeasure := cpuAverage cpusStart in
  let endMeasure := cpuAverage cpusEnd in
  let idleDifference := m_idle endMeasure - m_idle startMeasure in
  let totalDifference := m_total endMeasure - m_total startMeasure in
  let cpuPercentage :=
    ofZ 100 - Math_floor (ofZ 100 * idleDifference / totalDifference) in
  Math_max (ofZ 0) (Math_min (ofZ 100) cpuPercentage).

Record MemoryUsage : Type := mkMemoryUsage {
  mem_total : num;
  mem_used : num;
  mem_free : num;
  usagePercent : num
}.

(** getMemoryUsage(): [totalmem] and [freemem] are what os.totalmem() and
    os.freemem() return, in bytes. *)
Definition getMemoryUsage (totalmem freemem : Z) : MemoryUsage :=
  let totalMemGB :=
    Math_round (ofZ totalmem / ofZ 1024 / ofZ 1024 / ofZ 1024 * ofZ 100)
    / ofZ 100 in
  let freeMemGB :=
    Math_round (ofZ freemem / ofZ 1024 / ofZ 1024 / ofZ 1024 * ofZ 100)
    / ofZ 100 in
  let usedMemGB :=
    Math_round ((totalMemGB - freeMemGB) * ofZ 100) / ofZ 100 in
  {| mem_total := totalMemGB;
     mem_used := usedMemGB;
     mem_free := freeMemGB;
     usagePercent := Math_round ((usedMemGB / totalMemGB) * ofZ 100) |}.

End Sampling.

Arguments Measure : clear implicits.
Arguments MemoryUsage : clear implicits.

(* ================================================================= *)
(** * JavaScript strings *)

(** Strings are sequences of 8-bit characters; the output of the listing
    commands is taken as ASCII text. *)

Local Open Scope string_scope.

Definition LF : string := String (ascii_of_nat 10) EmptyString.
Definition quoteChar : ascii := ascii_of_nat 34.
(** The separator of the fields of a CSV line: quote, comma, quote. *)
Definition quoteCommaQuote : string :=
  String quoteChar (String "," (String quoteChar EmptyString)).

(** White space of [trim], of [\s] and of [parseFloat]: TAB, LF, VT, FF, CR
    and space. *)
Definition isWhiteSpace (c : ascii) : bool :=
  let n := nat_of_ascii c in
  ((9 <=? n) && (n <=? 13) || (n =? 32))%nat.

Fixpoint trimStart (s : string) : string :=
  match s with
  | String c s' => if isWhiteSpace c then trimStart s' else s
  | EmptyString => EmptyString
  end.

Fixpoint revString (s acc : string) : string :=
  match s with
  | String c s' => revString s' (String c acc)
  | EmptyString => acc
  end.

Definition trimEnd (s : string) : string :=
  revString (trimStart (revString s EmptyString)) EmptyString.

(** [s.trim()] *)
Definition trim (s : string) : string := trimEnd (trimStart s).

(** Puts [c] in front of the first piece of a split result. *)
Definition consHead (c : ascii) (pieces : list string) : list string :=
  match pieces with
  | h :: t => String c h :: t
  | [] => [String c EmptyString]
  end.

(** [s.split(sep)] for a non-empty string [sep]; [skip] counts the
    characters of a separator occurrence still to be passed over. *)
Fixpoint splitFrom (sep s : string) (skip : nat) : list string :=
  match s with
  | EmptyString => [EmptyString]
  | String c s' =>
      match skip with
      | S k => splitFrom sep s' k
      | O =>
          if String.prefix sep s
          then EmptyString :: splitFrom sep s' (String.length sep - 1)
          else consHead c (splitFrom sep s' 0)
      end
  end.

Definition split (sep s : string) : list string := splitFrom sep s 0.

(** [s.split(/\s+/)]: [inSpace] tells that the previous character was
    white space. *)
Fixpoint splitSpacesFrom (s : string) (inSpace : bool) : list string :=
  match s with
  | EmptyString => [EmptyString]
  | String c s' =>
      if isWhiteSpace c
      then (if inSpace then splitSpacesFrom s' true
            else EmptyString :: splitSpacesFrom s' true)
      else consHead c (splitSpacesFrom s' false)
  end.

Definition splitSpaces (s : string) : list string := splitSpacesFrom s false.

(** [s.replace] of every double quote by the empty string. *)
Fixpoint removeQuotes (s : string) : string :=
  match s with
  | String c s' =>
      if Ascii.eqb c quoteChar then removeQuotes s'
      else String c (removeQuotes s')
  | EmptyString => EmptyString
  end.

(** [columns[i] || dflt]: an absent element is undefined, and undefined and
    the empty string are falsy. *)
Definition columnOr (columns : list string) (i : nat) (dflt : string) : string :=
  match nth_error columns i with
  | Some EmptyString | None => dflt
  | Some s => s
  end.

(** [array.map((x, index) => ...)] *)
Fixpoint mapFrom {A B : Type} (f : A -> nat -> B) (index : nat) (l : list A)
  : list B :=
  match l with
  | [] => []
  | x :: l' => f x index :: mapFrom f (S index) l'
  end.

Definition mapi {A B : Type} (f : A -> nat -> B) (l : list A) : list B :=
  mapFrom f 0 l.

(* ----------------------------------------------------------------- *)
(** ** parseFloat *)

Definition digitOf (c : ascii) : option Z :=
  let n := nat_of_ascii c in
  if ((48 <=? n) && (n <=? 57))%nat then Some (Z.of_nat (n - 48)) else None.

(** Reads the longest run of decimal digits at the head of [s]: its value
    on top of [acc], the number of digits, and the rest of the string. *)
Fixpoint readDigits (s : string) (acc : Z) (count : nat) : Z * nat * string :=
  match s with
  | String c s' =>
      match digitOf c with
      | Some d => readDigits s' (10 * acc + d) (S count)
      | None => (acc, count, s)
      end
  | EmptyString => (acc, count, s)
  end.

Definition readSign (s : string) : bool * string :=
  match s with
  | String "-" s' => (true, s')
  | String "+" s' => (false, s')
  | _ => (false, s)
  end.

(** The exponent part [e], [e+] or [e-] followed by at least one digit;
    0 when there is none. *)
Definition readExponent (s : string) : Z :=
  match s with
  | String c s' =>
      if Ascii.eqb c "e" || Ascii.eqb c "E"
      then
        let '(negative, s'') := readSign s' in
        let '(e, count, _) := readDigits s'' 0 0 in
        match count with
        | O => 0
        | _ => if negative then - e else e
        end
      else 0
  | EmptyString => 0
  end%Z.

(** [mantissa * 10^exponent] *)
Definition decimalQ (mantissa exponent : Z) : Q :=
  match exponent with
  | Zneg p => mantissa # (10 ^ p)
  | _ => inject_Z (mantissa * 10 ^ exponent)
  end.

Inductive Parsed : Type :=
| ParsedNaN : Parsed
| ParsedInfinity : bool -> Parsed          (* negative? *)
| ParsedDecimal : bool -> Q -> Parsed.     (* negative?, magnitude *)

(** The longest prefix of the trimmed string that is a decimal literal. *)
Definition parseDecimal (s : string) : Parsed :=
  let '(negative, s1) := readSign (trimStart s) in
  if String.prefix "Infinity" s1 then ParsedInfinity negative
  else
    let '(intPart, intCount, s2) := readDigits s1 0 0 in
    let '(mantissa, fracCount, s3) :=
      match s2 with
      | String "." s2' =>
          let '(m, n, rest) := readDigits s2' intPart 0 in
          match intCount, n with
          | O, O => (m, n, s2)
          | _, _ => (m, n, rest)
          end
      | _ => (intPart, O, s2)
      end in
    match intCount, fracCount with
    | O, O => ParsedNaN
    | _, _ =>
        ParsedDecimal negative
          (decimalQ mantissa (readExponent s3 - Z.of_nat fracCount))
    end.

Section ParseFloat.
Context {num : Type} `{JSNumber num}.
Local Open Scope js_scope.

Definition NaN : num := ofZ 0 / ofZ 0.
Definition Infinity : num := ofZ 1 / ofZ 0.

Definition negateIf (negative : bool) (x : num) : num :=
  if negative then ofZ (-1) * x else x.

(** [parseFloat(x)] where [x] is a string or, for [None], undefined. *)
Definition parseFloat (x : option string) : num :=
  match x with
  | None => NaN
  | Some s =>
      match parseDecimal s with
      | ParsedNaN => NaN
      | ParsedInfinity negative => negateIf negative Infinity
      | ParsedDecimal negative q => negateIf negative (ofQ q)
      end
  end.

End ParseFloat.

(* ================================================================= *)
(** * The process collector *)

(** What the callback of exec receives: an error, or the text of stdout. *)
Inductive ExecResult : Type :=
| ExecError : ExecResult
| ExecOk : string -> ExecResult.

Section Collector.
Context {num : Type} `{JSNumber num}.
Local Open Scope js_scope.

Record ProcessRecord : Type := mkProcess {
  id : Z;
  name : string;
  pid : string;
  cpu : num;
  memory : num;
  status : string
}.

(** The Windows branch: at most 15 lines of the tasklist CSV; [random k]
    is the value of the k-th call of Math.random(), two calls per line. *)
Definition parseWindows (stdout : string) (random : nat -> num)
  : list ProcessRecord :=
  let lines := split LF (trim stdout) in
  mapi
    (fun line index =>
       let columns := map removeQuotes (split quoteCommaQuote line) in
       {| id := Z.of_nat index + 1;
          name := columnOr columns 0 "Unknown";
          pid := columnOr columns 1 "0";
          cpu := random (2 * index)%nat * ofZ 30;
          memory := random (2 * index + 1)%nat * ofZ 1000;
          status := "Running" |})
    (firstn 15 lines).

(** The Unix branch: the lines of ps after the header. *)
Definition parseUnix (stdout : string) : list ProcessRecord :=
  let lines := skipn 1 (split LF (trim stdout)) in
  mapi
    (fun line index =>
       let columns := splitSpaces (trim line) in
       {| id := Z.of_nat index + 1;
          name := columnOr columns 4 "Unknown";
          pid := columnOr columns 0 "0";
          cpu := orElse (parseFloat (nth_error columns 2)) (ofZ 0);
          memory := orElse (parseFloat (nth_error columns 3) * ofZ 10) (ofZ 0);
          status := "Running" |})
    lines.

(** The five demonstration records; [now k] is the value of the k-th call
    of Date.now() in the array literal. *)
Definition simulatedProcesses (now : nat -> Z) : list ProcessRecord :=
  [ {| id := now 0%nat; name := "chrome.exe"; pid := "1234";
       cpu := ofQ (255 # 10); memory := ofQ (8562 # 10); status := "Running" |};
    {| id := now 1%nat + 1; name := "node.exe"; pid := "5678";
       cpu := ofQ (123 # 10); memory := ofQ (3421 # 10); status := "Running" |};
    {| id := now 2%nat + 2; name := "code.exe"; pid := "9012";
       cpu := ofQ (87 # 10); memory := ofQ (6234 # 10); status := "Running" |};
    {| id := now 3%nat + 3; name := "firefox.exe"; pid := "3456";
       cpu := ofQ (152 # 10); memory := ofQ (7218 # 10); status := "Running" |};
    {| id := now 4%nat + 4; name := "explorer.exe"; pid := "7890";
       cpu := ofQ (31 # 10); memory := ofQ (1245 # 10); status := "Running" |} ].

(** The array [processes] of getProcesses before the merge. *)
Definition parsedProcesses (isWindows : bool) (stdout : string)
    (random : nat -> num) : list ProcessRecord :=
  if isWindows then parseWindows stdout random else parseUnix stdout.

(** getProcesses(): the list the promise resolves to.  [isWindows] is
    [process.platform === 'win32'] and [result] what exec hands to the
    callback.  Nothing in the try block throws on a string, so its catch
    branch, which resolves to the empty list as well, is not reached. *)
Definition getProcesses (isWindows : bool) (result : ExecResult)
    (now : nat -> Z) (random : nat -> num) : list ProcessRecord :=
  match result with
  | ExecError => []
  | ExecOk stdout =>
      let processes := parsedProcesses isWindows stdout random in
      simulatedProcesses now ++ firstn 10 processes
  end.

(* ================================================================= *)
(** * The metrics cache *)

(** [systemCache.usage]; the initial object has no [ramPercent]. *)
Record Usage : Type := mkUsage {
  u_cpu : num;
  ramTotal : num;
  ramUsed : num;
  ramPercent : option num;
  timestamp : Z
}.

Record Cache : Type := mkCache {
  usage : Usage;
  processes : list ProcessRecord;
  lastUpdate : Z
}.

Definition initialCache : Cache :=
  {| usage := {| u_cpu := ofZ 0; ramTotal := ofZ 0; ramUsed := ofZ 0;
                 ramPercent := None; timestamp := 0 |};
     processes := [];
     lastUpdate := 0 |}.

(** What one run of updateSystemCache() observes of the outside world, in
    the order of the calls. *)
Record RefreshEnv : Type := mkRefreshEnv {
  env_isWindows : bool;
  env_cpusStart : list CpuTimes;      (* os.cpus() in getCPUUsage *)
  env_cpusEnd : list CpuTimes;        (* os.cpus() in the timer callback *)
  env_exec : ExecResult;
  env_idNow : nat -> Z;               (* Date.now() in the array literal *)
  env_random : nat -> num;
  env_totalmem : Z;
  env_freemem : Z;
  env_timestampNow : Z;               (* Date.now() for usage.timestamp *)
  env_lastUpdateNow : Z               (* Date.now() for lastUpdate *)
}.

(** updateSystemCache(): the value of the variable [systemCache] after the
    run.  Neither promise rejects and getMemoryUsage does not throw, so the
    assignment is always reached; it does not read the old record. *)
Definition updateSystemCache (env : RefreshEnv) (systemCache : Cache) : Cache :=
  let cpu := getCPUUsage (env_cpusStart env) (env_cpusEnd env) in
  let processes :=
    getProcesses (env_isWindows env) (env_exec env) (env_idNow env)
      (env_random env) in
  let memory := getMemoryUsage (env_totalmem env) (env_freemem env) in
  {| usage := {| u_cpu := cpu;
                 ramTotal := mem_total memory;
                 ramUsed := mem_used memory;
                 ramPercent := Some (usagePercent memory);
                 timestamp := env_timestampNow env |};
     processes := processes;
     lastUpdate := env_lastUpdateNow env |}.

(** The caches the variable [systemCache] can hold: the initial one, and
    whatever a run of updateSystemCache leaves, whichever run completes
    last. *)
Inductive reachable : Cache -> Prop :=
| reach_init : reachable initialCache
| reach_update : forall env c, reachable c -> reachable (updateSystemCache env c).

(* ----------------------------------------------------------------- *)
(** ** The cached routes *)

Record UsageResponse : Type := mkUsageResponse {
  ur_success : bool;
  ur_data : Usage
}.

Record ProcessesResponse : Type := mkProcessesResponse {
  pr_success : bool;
  pr_data : list ProcessRecord;
  pr_count : nat
}.

(** GET /api/usage: [now] is Date.now() at the test, [env] what the refresh
    observes if it runs.  Returns the cache afterwards and the JSON body
    (without its own ISO time stamp). *)
Definition apiUsage (now : Z) (env : RefreshEnv) (systemCache : Cache)
  : Cache * UsageResponse :=
  let systemCache :=
    if (now - lastUpdate systemCache >? 3000)%Z
    then updateSystemCache env systemCache
    else systemCache in
  (systemCache, {| ur_success := true; ur_data := usage systemCache |}).

(** GET /api/processes *)
Definition apiProcesses (now : Z) (env : RefreshEnv) (systemCache : Cache)
  : Cache * ProcessesResponse :=
  let systemCache :=
    if (now - lastUpdate systemCache >? 5000)%Z
    then updateSystemCache env systemCache
    else systemCache in
  (systemCache,
   {| pr_success := true;
      pr_data := processes systemCache;
      pr_count := List.length (processes systemCache) |}).

End Collector.

Arguments ProcessRecord : clear implicits.
Arguments Usage : clear implicits.
Arguments Cache : clear implicits.
Arguments RefreshEnv : clear implicits.
Arguments UsageResponse : clear implicits.
Arguments ProcessesResponse : clear implicits.

(* ================================================================= *)
(** * Sample inputs *)

Definition GB : Z := 1024 * 1024 * 1024.

(** A one-core reading of os.cpus() with [u] user and [i] idle ticks. *)
Definition oneCore (u i : Z) : list CpuTimes :=
  [ {| user := u; nice := 0; sys := 0; idle := i; irq := 0 |} ].

Definition psOutput : string :=
  "    PID    PPID %CPU %MEM COMMAND
   2211       1 12.5  3.1 firefox
      1       0  0.0  0.1 systemd
".

Definition dq : string := String quoteChar EmptyString.
Definition CRLF : string := String (ascii_of_nat 13) LF.

Definition tasklistOutput : string :=
  dq ++ "System Idle Process" ++ dq ++ "," ++ dq ++ "0" ++ dq ++ ","
     ++ dq ++ "Services" ++ dq ++ "," ++ dq ++ "0" ++ dq ++ ","
     ++ dq ++ "8 K" ++ dq ++ CRLF
  ++ dq ++ "System" ++ dq ++ "," ++ dq ++ "4" ++ dq ++ ","
     ++ dq ++ "Services" ++ dq ++ "," ++ dq ++ "0" ++ dq ++ ","
     ++ dq ++ "152 K" ++ dq ++ CRLF.

(** A clock that stands at [t] during the calls. *)
Definition clockAt (t : Z) : nat -> Z := fun _ => t.

(** A refresh on a Unix host with the sample readings, whose two last
    calls of Date.now() return [timestampNow] and [lastUpdateNow]. *)
Definition sampleEnv {num : Type} `{JSNumber num}
    (timestampNow lastUpdateNow : Z) : RefreshEnv num :=
  {| env_isWindows := false;
     env_cpusStart := oneCore 0 0;
     env_cpusEnd := oneCore 200 800;
     env_exec := ExecOk psOutput;
     env_idNow := clockAt timestampNow;
     env_random := fun _ => ofZ 0;
     env_totalmem := 16 * GB;
     env_freemem := 4 * GB;
     env_timestampNow := timestampNow;
     env_lastUpdateNow := lastUpdateNow |}.

(** The cache as a refresh at time [t] leaves it. *)
Definition cacheAt (t : Z) : Cache float :=
  updateSystemCache (sampleEnv t t) initialCache.

(* ================================================================= *)
(** * The specification's formulas, in exact arithmetic *)

Definition sumIdle (cpus : list CpuTimes) : Z :=
  fold_right (fun cpu acc => idle cpu + acc)%Z 0%Z cpus.

Definition sumTicks (cpus : list CpuTimes) : Z :=
  fold_right
    (fun cpu acc => user cpu + nice cpu + sys cpu + idle cpu + irq cpu + acc)%Z
    0%Z cpus.

Definition cores (cpus : list CpuTimes) : Q :=
  inject_Z (Z.of_nat (List.length cpus)).

(** idleDelta = idleEnd - idleStart and totalDelta = totalEnd - totalStart,
    on the per-core averages. *)
Definition idleDelta (cpusStart cpusEnd : list CpuTimes) : Q :=
  inject_Z (sumIdle cpusEnd) / cores cpusEnd
  - inject_Z (sumIdle cpusStart) / cores cpusStart.

Definition totalDelta (cpusStart cpusEnd : list CpuTimes) : Q :=
  inject_Z (sumTicks cpusEnd) / cores cpusEnd
  - inject_Z (sumTicks cpusStart) / cores cpusStart.

(** percent = 100 - floor(100 * idleDelta / totalDelta), clamped to
    [0,100]. *)
Definition specPercent (idleDelta totalDelta : Q) : Z :=
  Z.max 0 (Z.min 100 (100 - Qfloor (100 * idleDelta / totalDelta))).

(** round(x): to the nearest integer, halves up. *)
Definition roundQ (x : Q) : Z := Qfloor (x + (1 # 2)).

(** A byte count in GB, rounded to 2 decimal places. *)
Definition round2GB (bytes : Z) : Q :=
  inject_Z (roundQ (inject_Z bytes / 1024 / 1024 / 1024 * 100)) / 100.





(** The ids 1..n that the records of a parsed list get by position. *)
Definition positionIds (n : nat) : list Z :=
  map (fun index => Z.of_nat index + 1)%Z (seq 0 n).

(** The clock does not run backwards between the five calls of Date.now()
    in the array literal. *)
Definition nonDecreasing (now : nat -> Z) : Prop :=
  forall i j : nat, (i <= j <= 4)%nat -> (now i <= now j)%Z.

From Stdlib Require Import Lqa.

(* ================================================================= *)
(** * Notions for the properties of the parsers *)

Definition LFchar : ascii := ascii_of_nat 10.

(** The number of occurrences of the character [c] in [s]. *)
Fixpoint countChar (c : ascii) (s : string) : nat :=
  match s with
  | String d s' => (if Ascii.eqb c d then 1 else 0) + countChar c s'
  | EmptyString => 0
  end.

(** [c] does not occur in [s]. *)
Fixpoint noChar (c : ascii) (s : string) : bool :=
  match s with
  | String d s' => negb (Ascii.eqb c d) && noChar c s'
  | EmptyString => true
  end.

(** Every character of [s] is white space. *)
Fixpoint allWhiteSpace (s : string) : bool :=
  match s with
  | String c s' => isWhiteSpace c && allWhiteSpace s'
  | EmptyString => true
  end.


(** [pieces.join(sep)] *)
Fixpoint joinWith (sep : string) (pieces : list string) : string :=
  match pieces with
  | [] => EmptyString
  | [p] => p
  | p :: rest => p ++ sep ++ joinWith sep rest
  end.

(** [s] without its first [n] characters. *)
Fixpoint dropString (n : nat) (s : string) : string :=
  match n, s with
  | S n', String _ s' => dropString n' s'
  | _, _ => s
  end.


(* ================================================================= *)
(** * The system-info route *)

(** One entry of os.cpus() as the route reads it: the model string beside
    the times. *)
Record CpuInfo : Type := mkCpuInfo {
  model : string;
  times : CpuTimes
}.

Section SystemInfo.
Context {num : Type} `{JSNumber num}.
Local Open Scope js_scope.

Record SystemInfo : Type := mkSystemInfo {
  si_platform : string;
  si_architecture : string;
  si_hostname : string;
  si_uptime : num;
  si_cpuCores : nat;
  si_cpuModel : string;
  si_totalMemory : num
}.

(** [os.cpus()[0]?.model || 'Unknown'] *)
Definition firstModelOr (cpus : list CpuInfo) (dflt : string) : string :=
  match cpus with
  | cpu :: _ =>
      match model cpu with
      | EmptyString => dflt
      | m => m
      end
  | [] => dflt
  end.

(** GET /api/system-info: the [data] of the answer.  [platform], [arch],
    [hostname] and [uptime] are what the calls of os return; os.cpus() is
    called twice, for the count and for the model. *)
Definition apiSystemInfo (platform arch hostname : string) (uptime : num)
    (cpusForCount cpusForModel : list CpuInfo) (totalmem : Z) : SystemInfo :=
  {| si_platform := platform;
     si_architecture := arch;
     si_hostname := hostname;
     si_uptime := Math_floor uptime;
     si_cpuCores := List.length cpusForCount;
     si_cpuModel := firstModelOr cpusForModel "Unknown";
     si_totalMemory :=
       Math_round (ofZ totalmem / ofZ 1024 / ofZ 1024 / ofZ 1024 * ofZ 100)
       / ofZ 100 |}.

End SystemInfo.

Arguments SystemInfo : clear implicits.

(* ================================================================= *)
(** * The layout of the listings *)

Definition startsNonWhite (s : string) : bool :=
  match s with
  | String c _ => negb (isWhiteSpace c)
  | EmptyString => false
  end.

Definition endsNonWhite (s : string) : bool :=
  startsNonWhite (revString s EmptyString).


(** White space within a line: no line feed in it. *)
Definition isPadding (g : string) : bool :=
  allWhiteSpace g && noChar LFchar g.










Section RecordsOfColumns.
Context {num : Type} `{JSNumber num}.
Local Open Scope js_scope.


End RecordsOfColumns.

(** A field of a CSV line: no double quote and no line feed in it. *)
Definition isField (f : string) : bool :=
  noChar quoteChar f && noChar LFchar f.

(** The fields of a row of the tasklist listing: at least three, and the
    first is not a lone comma. *)
Definition isCsvRow (fields : list string) : bool :=
  match fields with
  | f0 :: _ :: _ :: _ => negb (String.eqb f0 ",") && forallb isField fields
  | _ => false
  end.

(** The text of a CSV row: the fields in double quotes, separated by
    commas. *)
Definition csvRowText (fields : list string) : string :=
  dq ++ joinWith quoteCommaQuote fields ++ dq.

(** The text of a tasklist listing: one row per line, each line ended
    by [tail] and a line feed ([tail] is empty or a carriage return), with
    white space allowed before and after. *)
Definition csvListing (lead tail : string) (rows : list (list string))
    (trail : string) : string :=
  lead ++ joinWith (tail ++ LF) (map csvRowText rows) ++ trail.

(** The lines of a text whose lines are joined by [tail] and a line feed:
    all but the last keep [tail]. *)
Fixpoint withTails (tail : string) (lines : list string) : list string :=
  match lines with
  | [] => []
  | [l] => [l]
  | l :: rest => (l ++ tail) :: withTails tail rest
  end.

(** The pieces of a CSV row after its opening quote: the last one keeps
    the closing quote and what follows it. *)
Fixpoint closeLast (closing : string) (fields : list string) : list string :=
  match fields with
  | [] => []
  | [f] => [f ++ closing]
  | f :: rest => f :: closeLast closing rest
  end.

Section RecordsOfFields.
Context {num : Type} `{JSNumber num}.
Local Open Scope js_scope.

(** The record that the Windows branch builds from the columns of a
    line. *)
Definition windowsRecordOf (random : nat -> num) (columns : list string)
    (index : nat) : ProcessRecord num :=
  {| id := Z.of_nat index + 1;
     name := columnOr columns 0 "Unknown";
     pid := columnOr columns 1 "0";
     cpu := random (2 * index)%nat * ofZ 30;
     memory := random (2 * index + 1)%nat * ofZ 1000;
     status := "Running" |}.

End RecordsOfFields.

(* ================================================================= *)
(** * Decimal numerals *)

Definition digitChar (d : nat) : ascii := ascii_of_nat (48 + d).

(** The numeral with the digits [ds], the most significant first. *)
Fixpoint digitsText (ds : list nat) : string :=
  match ds with
  | [] => EmptyString
  | d :: ds' => String (digitChar d) (digitsText ds')
  end.

(** The number that the digits [ds] denote after the digits already read
    gave [acc]. *)
Fixpoint digitsValue (acc : Z) (ds : list nat) : Z :=
  match ds with
  | [] => acc
  | d :: ds' => digitsValue (10 * acc + Z.of_nat d) ds'
  end.

Definition allDigits (ds : list nat) : bool :=
  forallb (fun d => d <? 10)%nat ds.

(* ================================================================= *)
(** * Arithmetic of the exact instance *)

Lemma Qred_inject_Z (z : Z) : Qred (inject_Z z) = inject_Z z.
Proof.
  apply Qcanon.Qred_identity. simpl. apply Z.gcd_1_r.
Qed.

Lemma ofZ_exact (z : Z) : ofZ (num := xnum) z = XFin (inject_Z z).
Proof.
  change (XFin (Qred (inject_Z z)) = XFin (inject_Z z)).
  now rewrite Qred_inject_Z.
Qed.





Lemma xfin_eq (p q : Q) : p == q -> XFin (Qred p) = XFin (Qred q).
Proof. intro E. f_equal. now apply Qred_complete. Qed.















(* ----------------------------------------------------------------- *)
(** ** The CPU sampler on the exact instance *)

Lemma xadd_Z (a b : Z) :
  xadd (XFin (inject_Z a)) (ofZ b) = XFin (inject_Z (a + b)).
Proof.
  rewrite ofZ_exact. unfold xadd.
  rewrite <- (Qred_inject_Z (a + b)). apply xfin_eq.
  rewrite inject_Z_plus. reflexivity.
Qed.





#[export] Instance specPercent_comp : Proper (Qeq ==> Qeq ==> eq) specPercent.
Proof.
  intros i i' Ei t t' Et. unfold specPercent. now rewrite Ei, Et.
Qed.



Lemma fold_ticks_exact (cpus : list CpuTimes) (a b : Z) :
  fold_left
    (fun (acc : xnum * xnum) (cpu : CpuTimes) =>
       let '(totalIdle, totalTick) := acc in
       let totalTick :=
         xadd (xadd (xadd (xadd (xadd totalTick (ofZ (user cpu)))
                             (ofZ (nice cpu))) (ofZ (sys cpu)))
                 (ofZ (idle cpu))) (ofZ (irq cpu)) in
       let totalIdle := xadd totalIdle (ofZ (idle cpu)) in
       (totalIdle, totalTick))
    cpus (XFin (inject_Z a), XFin (inject_Z b))
  = (XFin (inject_Z (a + sumIdle cpus)), XFin (inject_Z (b + sumTicks cpus))).
Proof.
  revert a b. induction cpus as [|cpu cpus IH]; intros a b; cbn [fold_left].
  - cbn [sumIdle sumTicks fold_right]. now rewrite !Z.add_0_r.
  - rewrite !xadd_Z, IH.
    change (sumIdle (cpu :: cpus)) with (idle cpu + sumIdle cpus)%Z.
    change (sumTicks (cpu :: cpus))
      with (user cpu + nice cpu + sys cpu + idle cpu + irq cpu
            + sumTicks cpus)%Z.
    f_equal; do 2 f_equal; lia.
Qed.

Lemma cpuAverage_exact (cpus : list CpuTimes) :
  cpuAverage (num := xnum) cpus
  = {| m_idle := xdiv (XFin (inject_Z (sumIdle cpus))) (XFin (cores cpus));
       m_total := xdiv (XFin (inject_Z (sumTicks cpus))) (XFin (cores cpus)) |}.
Proof.
  unfold cpuAverage.
  change (@nadd xnum exact) with xadd. change (@ndiv xnum exact) with xdiv.
  rewrite !ofZ_exact, fold_ticks_exact. reflexivity.
Qed.



(* ----------------------------------------------------------------- *)
(** ** The ids of a process list *)

Lemma firstn_seq (k start n : nat) :
  firstn k (seq start n) = seq start (Nat.min k n).
Proof.
  revert start n. induction k as [|k IH]; intros start [|n]; cbn; try reflexivity.
  f_equal. apply IH.
Qed.

Lemma positionIds_firstn (k n : nat) :
  firstn k (positionIds n) = positionIds (Nat.min k n).
Proof.
  unfold positionIds. now rewrite firstn_map, firstn_seq.
Qed.

Lemma positionIds_range (n : nat) (x : Z) :
  In x (positionIds n) -> (1 <= x <= Z.of_nat n)%Z.
Proof.
  unfold positionIds. rewrite in_map_iff. intros [i [E Hi]].
  apply in_seq in Hi. lia.
Qed.

Lemma positionIds_NoDup (n : nat) : NoDup (positionIds n).
Proof.
  unfold positionIds. apply NoDup_map_NoDup_ForallPairs.
  - intros i j _ _ E. lia.
  - apply seq_NoDup.
Qed.

Section CollectorFacts.
Context {num : Type} `{JSNumber num}.

Lemma mapFrom_length {A B : Type} (f : A -> nat -> B) (l : list A) (k : nat) :
  List.length (mapFrom f k l) = List.length l.
Proof.
  revert k. induction l as [|x l IH]; intro k; cbn; [reflexivity|].
  now rewrite IH.
Qed.

Lemma mapFrom_ids {A : Type} (f : A -> nat -> ProcessRecord num) :
  (forall x index, id (f x index) = (Z.of_nat index + 1)%Z) ->
  forall (l : list A) (k : nat),
    map (@id num) (mapFrom f k l)
    = map (fun index => Z.of_nat index + 1)%Z (seq k (List.length l)).
Proof.
  intros Hid l. induction l as [|x l IH]; intro k; cbn; [reflexivity|].
  now rewrite Hid, IH.
Qed.

Lemma parseWindows_ids (stdout : string) (random : nat -> num) :
  map (@id num) (parseWindows stdout random)
  = positionIds (List.length (parseWindows stdout random)).
Proof.
  unfold parseWindows, mapi. rewrite mapFrom_length.
  apply mapFrom_ids. reflexivity.
Qed.

Lemma parseUnix_ids (stdout : string) :
  map (@id num) (parseUnix stdout)
  = positionIds (List.length (parseUnix (num := num) stdout)).
Proof.
  unfold parseUnix, mapi. rewrite mapFrom_length.
  apply mapFrom_ids. reflexivity.
Qed.

Lemma parseWindows_length (stdout : string) (random : nat -> num) :
  (List.length (parseWindows stdout random) <= 15)%nat.
Proof.
  unfold parseWindows, mapi. rewrite mapFrom_length. apply firstn_le_length.
Qed.

Lemma parsedProcesses_ids (isWindows : bool) (stdout : string)
    (random : nat -> num) :
  map (@id num) (firstn 10 (parsedProcesses isWindows stdout random))
  = positionIds
      (Nat.min 10 (List.length (parsedProcesses isWindows stdout random))).
Proof.
  rewrite <- firstn_map, <- positionIds_firstn. f_equal.
  unfold parsedProcesses. destruct isWindows.
  - apply parseWindows_ids.
  - apply parseUnix_ids.
Qed.

Lemma simulatedProcesses_ids (now : nat -> Z) :
  map (@id num) (simulatedProcesses now)
  = [now 0%nat; now 1%nat + 1; now 2%nat + 2; now 3%nat + 3; now 4%nat + 4]%Z.
Proof. reflexivity. Qed.

End CollectorFacts.

(* ================================================================= *)
(** * The process collector: claims C1, C8, C9 *)



(** C8.  When the command succeeds, the list is the five synthetic records
    (fixed names and pids) followed by the first ten, at most, of the
    parsed records, in that order, on either platform and for every number
    instance. *)
Theorem getProcesses_merge {num : Type} `{JSNumber num}
    (isWindows : bool) (stdout : string) (now : nat -> Z)
    (random : nat -> num) :
  getProcesses isWindows (ExecOk stdout) now random
  = (simulatedProcesses now
     ++ firstn 10 (parsedProcesses isWindows stdout random))%list
  /\ List.length (simulatedProcesses (num := num) now) = 5%nat
  /\ map (fun p => (name p, pid p)) (simulatedProcesses (num := num) now)
     = [ ("chrome.exe", "1234"); ("node.exe", "5678"); ("code.exe", "9012");
         ("firefox.exe", "3456"); ("explorer.exe", "7890") ]
  /\ (List.length (firstn 10 (parsedProcesses isWindows stdout random))
      <= 10)%nat
  /\ firstn 5 (getProcesses isWindows (ExecOk stdout) now random)
     = simulatedProcesses now
  /\ skipn 5 (getProcesses isWindows (ExecOk stdout) now random)
     = firstn 10 (parsedProcesses isWindows stdout random).
Proof.
  repeat split.
  apply firstn_le_length.
Qed.

(** C9 (as amended).  In a list returned by getProcesses the real records
    have the ids 1..n by position (n at most 10) and the synthetic ones the
    clock value of their own Date.now() call plus 0..4; the ids of the list
    are pairwise distinct provided the clock does not run backwards between
    the five calls and reads more than 10. *)
Theorem getProcesses_ids_distinct {num : Type} `{JSNumber num}
    (isWindows : bool) (result : ExecResult) (now : nat -> Z)
    (random : nat -> num) :
  nonDecreasing now -> (10 < now 0%nat)%Z ->
  NoDup (map (@id num) (getProcesses isWindows result now random))
  /\ (forall stdout : string,
        result = ExecOk stdout ->
        map (@id num) (getProcesses isWindows result now random)
        = ([now 0%nat; now 1%nat + 1; now 2%nat + 2; now 3%nat + 3;
            now 4%nat + 4]%Z
           ++ positionIds
                (Nat.min 10
                   (List.length (parsedProcesses isWindows stdout random))))
          %list).
Proof.
  intros Hmono Hbig. split.
  2:{ intros stdout ->. unfold getProcesses.
      now rewrite map_app, parsedProcesses_ids, simulatedProcesses_ids. }
  destruct result as [|stdout]; [constructor|].
  unfold getProcesses.
  rewrite map_app, parsedProcesses_ids, simulatedProcesses_ids.
  pose proof (Hmono 0 1 ltac:(lia))%nat as H01.
  pose proof (Hmono 1 2 ltac:(lia))%nat as H12.
  pose proof (Hmono 2 3 ltac:(lia))%nat as H23.
  pose proof (Hmono 3 4 ltac:(lia))%nat as H34.
  apply NoDup_app.
  - repeat (constructor; [cbn [In]; lia|]). constructor.
  - apply positionIds_NoDup.
  - intros x Hx Hreal. apply positionIds_range in Hreal.
    cbn [In] in Hx. lia.
Qed.

Lemma getProcesses_ids_distinct_witness :
  NoDup
    (map (@id float)
       (getProcesses (num := float) false (ExecOk psOutput)
          (clockAt 1700000000000) (fun _ => zero))).
Proof.
  apply (getProcesses_ids_distinct (num := float) false (ExecOk psOutput)
           (now := clockAt 1700000000000) (fun _ => zero)).
  - intros i j _. unfold clockAt. lia.
  - unfold clockAt. lia.
Defined.

(** C9 as stated fails: with the clock standing at 1 ms after the epoch the
    first synthetic record and the first real record both have id 1. *)
Lemma getProcesses_ids_collide :
  ~ NoDup
      (map (@id float)
         (getProcesses (num := float) false (ExecOk psOutput) (clockAt 1)
            (fun _ => zero))).
Proof.
  intro Hnd. vm_compute in Hnd.
  inversion Hnd as [|x l Hnotin _]. apply Hnotin. cbn. tauto.
Qed.

(** The same happens at any date when the clock steps back by 1 ms between
    the first and the second call of Date.now(): the first two synthetic
    records share an id. *)
Lemma getProcesses_ids_collide_on_clock_step :
  ~ NoDup
      (map (@id float)
         (getProcesses (num := float) false (ExecOk psOutput)
            (fun k => match k with
                      | O => 1700000000001
                      | _ => 1700000000000
                      end%Z)
            (fun _ => zero))).
Proof.
  intro Hnd. vm_compute in Hnd.
  inversion Hnd as [|x l Hnotin _]. apply Hnotin. cbn. tauto.
Qed.

(* ================================================================= *)
(** * The cache: claims C3, C4 *)

(** C3 (as amended).  Every record the cache variable holds after a refresh
    was written by one assignment and built from that one refresh alone:
    its usage and its process list come from the same run and nothing of
    the older record is kept, so no reader finds a usage paired with the
    processes of another cycle.  usage.timestamp and lastUpdate are two
    successive clock reads: they agree exactly when the clock did not move
    between the two reads, and timestamp <= lastUpdate when the clock does
    not run backwards. *)
Theorem updateSystemCache_wholesale {num : Type} `{JSNumber num}
    (c : Cache num) :
  reachable c ->
  c = initialCache
  \/ exists env : RefreshEnv num,
       (forall old : Cache num, c = updateSystemCache env old)
       /\ u_cpu (usage c) = getCPUUsage (env_cpusStart env) (env_cpusEnd env)
       /\ processes c
          = getProcesses (env_isWindows env) (env_exec env) (env_idNow env)
              (env_random env)
       /\ timestamp (usage c) = env_timestampNow env
       /\ lastUpdate c = env_lastUpdateNow env
       /\ (timestamp (usage c) = lastUpdate c
           <-> env_timestampNow env = env_lastUpdateNow env)
       /\ ((env_timestampNow env <= env_lastUpdateNow env)%Z
           -> (timestamp (usage c) <= lastUpdate c)%Z).
Proof.
  intros [|env old _]; [now left|right].
  exists env. cbn. repeat split; auto.
Qed.

Lemma updateSystemCache_wholesale_witness :
  updateSystemCache (num := float) (sampleEnv 1700000000000 1700000000000)
    initialCache = initialCache
  \/ exists env : RefreshEnv float,
       (forall old : Cache float,
          updateSystemCache (sampleEnv 1700000000000 1700000000000)
            initialCache
          = updateSystemCache env old)
       /\ env_timestampNow env = env_lastUpdateNow env.
Proof.
  destruct (updateSystemCache_wholesale
              (c := updateSystemCache (num := float)
                      (sampleEnv 1700000000000 1700000000000) initialCache))
    as [E | [env [Hall [_ [_ [Hts [Hlu _]]]]]]].
  - apply reach_update, reach_init.
  - left. exact E.
  - right. exists env. split; [exact Hall|].
    rewrite <- Hts, <- Hlu. reflexivity.
Defined.

(** C3 as stated fails: when the clock advances between the two calls of
    Date.now() in the object literal, usage.timestamp and lastUpdate
    differ after a successful refresh. *)
Lemma updateSystemCache_timestamp_differs :
  timestamp
    (usage
       (updateSystemCache (num := float)
          (sampleEnv 1700000000000 1700000000001) initialCache))
  <> lastUpdate
       (updateSystemCache (num := float)
          (sampleEnv 1700000000000 1700000000001) initialCache).
Proof. cbn. discriminate. Qed.

(** C4.  A usage read refreshes before answering exactly when
    now - lastUpdate exceeds 3000 ms, a processes read exactly when it
    exceeds 5000 ms; otherwise the read answers from the cache and leaves
    it as it is.  The refresh that either read triggers is the full one:
    the answer and the new cache carry the usage and the processes of that
    same run. *)
Theorem cached_routes_thresholds {num : Type} `{JSNumber num}
    (now : Z) (env : RefreshEnv num) (c : Cache num) :
  ((3000 < now - lastUpdate c)%Z ->
     apiUsage now env c
     = (updateSystemCache env c,
        {| ur_success := true; ur_data := usage (updateSystemCache env c) |}))
  /\ ((now - lastUpdate c <= 3000)%Z ->
        apiUsage now env c
        = (c, {| ur_success := true; ur_data := usage c |}))
  /\ ((5000 < now - lastUpdate c)%Z ->
        apiProcesses now env c
        = (updateSystemCache env c,
           {| pr_success := true;
              pr_data := processes (updateSystemCache env c);
              pr_count := List.length (processes (updateSystemCache env c)) |}))
  /\ ((now - lastUpdate c <= 5000)%Z ->
        apiProcesses now env c
        = (c, {| pr_success := true;
                 pr_data := processes c;
                 pr_count := List.length (processes c) |}))
  /\ u_cpu (usage (updateSystemCache env c))
     = getCPUUsage (env_cpusStart env) (env_cpusEnd env)
  /\ processes (updateSystemCache env c)
     = getProcesses (env_isWindows env) (env_exec env) (env_idNow env)
         (env_random env)
  /\ lastUpdate (updateSystemCache env c) = env_lastUpdateNow env.
Proof.
  unfold apiUsage, apiProcesses.
  repeat split; intro Hage.
  - destruct (Z.gtb_spec (now - lastUpdate c) 3000); [reflexivity | lia].
  - destruct (Z.gtb_spec (now - lastUpdate c) 3000); [lia | reflexivity].
  - destruct (Z.gtb_spec (now - lastUpdate c) 5000); [reflexivity | lia].
  - destruct (Z.gtb_spec (now - lastUpdate c) 5000); [lia | reflexivity].
Qed.

(** With lastUpdate = T, a usage read at T + 2900 ms answers from the cache
    and a read at T + 3100 ms refreshes first. *)
Lemma cached_routes_thresholds_witness :
  fst (apiUsage (1700000000000 + 2900) (sampleEnv 1700000002900 1700000002900)
         (cacheAt 1700000000000))
  = cacheAt 1700000000000
  /\ lastUpdate
       (fst (apiUsage (1700000000000 + 3100)
               (sampleEnv 1700000003100 1700000003100)
               (cacheAt 1700000000000)))
     = 1700000003100%Z.
Proof.
  split.
  - destruct (cached_routes_thresholds (1700000000000 + 2900)
                (sampleEnv 1700000002900 1700000002900)
                (cacheAt 1700000000000)) as [_ [Hfresh _]].
    rewrite Hfresh; [reflexivity | cbn; lia].
  - destruct (cached_routes_thresholds (1700000000000 + 3100)
                (sampleEnv 1700000003100 1700000003100)
                (cacheAt 1700000000000)) as [Hstale _].
    rewrite Hstale; [reflexivity | cbn; lia].
Defined.

(* ================================================================= *)
(** * The CPU sampler: claims C2, C5 *)








(** On doubles: idle delta 800 and total delta 1000 give 20; totalDelta = 0
    with idleDelta = 10 gives 0, through -Infinity and the clamp. *)
Lemma getCPUUsage_binary64_samples :
  getCPUUsage (num := float) (oneCore 0 0) (oneCore 200 800) = f64_ofZ 20
  /\ getCPUUsage (num := float) (oneCore 10 0) (oneCore 0 10) = zero.
Proof. split; vm_compute; reflexivity. Qed.

(* ================================================================= *)
(** * The memory reader: claims C6, C7, C10 *)



(** The rounding order is visible: for this reading (16.004 GB in total,
    3.996 GB free) the code reports 12.00 GB used, where the raw byte
    difference would round to 12.01 GB. *)
Lemma getMemoryUsage_not_from_raw_bytes :
  mem_used (getMemoryUsage (num := xnum) 17184164151 4290672328) = XFin 12
  /\ round2GB (17184164151 - 4290672328) == 1201 # 100.
Proof. split; vm_compute; reflexivity. Qed.

(** On doubles: total 16 GB and free 4 GB. *)
Lemma getMemoryUsage_binary64_16_4 :
  getMemoryUsage (num := float) (16 * GB) (4 * GB)
  = {| mem_total := f64_ofZ 16; mem_used := f64_ofZ 12;
       mem_free := f64_ofZ 4; usagePercent := f64_ofZ 75 |}.
Proof. vm_compute. reflexivity. Qed.

(** On doubles the second rounding of usedMemGB does work: for 0.30 GB in
    total and 0.10 GB free it returns the double 0.2, where the plain
    difference of the two doubles is 0.19999999999999998. *)
Lemma getMemoryUsage_binary64_second_rounding :
  mem_used (getMemoryUsage (num := float) 322122547 107374182)
  = f64_ofQ (2 # 10)
  /\ PrimFloat.eqb
       (PrimFloat.sub
          (mem_total (getMemoryUsage (num := float) 322122547 107374182))
          (mem_free (getMemoryUsage (num := float) 322122547 107374182)))
       (f64_ofQ (2 # 10))
     = false.
Proof. split; vm_compute; reflexivity. Qed.






(** On doubles: the same reading, and one where the free memory alone
    rounds above zero. *)
Lemma getMemoryUsage_binary64_unguarded :
  usagePercent (getMemoryUsage (num := float) 4194304 1048576) = nan
  /\ usagePercent (getMemoryUsage (num := float) 4194304 8388608)
     = neg_infinity.
Proof. split; vm_compute; reflexivity. Qed.

(* ================================================================= *)
(** * The binary64 instance on samples, and the clamp on doubles *)

(** Literals are rounded to the nearest double, integers are exact. *)
Lemma f64_ofQ_samples :
  f64_ofQ (1 # 10) = 0x1.999999999999ap-4%float
  /\ f64_ofQ (8562 # 10) = 0x1.ac1999999999ap+9%float
  /\ f64_ofQ (- 1 # 2) = PrimFloat.opp 0x1p-1%float
  /\ f64_ofZ 100 = 0x1.9p+6%float
  /\ f64_ofQ (inject_Z 100) = 0x1.9p+6%float.
Proof. repeat split; vm_compute; reflexivity. Qed.

(** Math.floor and Math.round at halves and below zero:
    floor(-0.5) = -1, floor(3.5) = 3, round(2.5) = 3, round(-2.5) = -2,
    round(-0.5) = -0, round(0.49999999999999994) = 0. *)
Lemma f64_rounding_samples :
  f64_floor (f64_ofQ (- 1 # 2)) = f64_ofZ (- 1)
  /\ f64_floor (f64_ofQ (7 # 2)) = f64_ofZ 3
  /\ f64_round (f64_ofQ (5 # 2)) = f64_ofZ 3
  /\ f64_round (f64_ofQ (- 5 # 2)) = f64_ofZ (- 2)
  /\ f64_round (f64_ofQ (- 1 # 2)) = neg_zero
  /\ f64_round 0x1.fffffffffffffp-2%float = zero.
Proof. repeat split; vm_compute; reflexivity. Qed.

Lemma f64_ltb_leb (x y : float) :
  PrimFloat.ltb x y = true -> PrimFloat.leb x y = true.
Proof.
  rewrite ltb_spec, leb_spec. unfold SFltb, SFleb.
  destruct (SFcompare (Prim2SF x) (Prim2SF y)) as [[| |]|]; congruence.
Qed.

(** Math.max(0, Math.min(100, c)) is NaN or a double in [0,100], whatever
    the double [c]. *)
Lemma f64_clamp_range (c : float) :
  PrimFloat.is_nan (f64_max zero (f64_min (f64_ofZ 100) c)) = true
  \/ f64_between zero (f64_ofZ 100) (f64_max zero (f64_min (f64_ofZ 100) c))
     = true.
Proof.
  replace (f64_ofZ 100) with 100%float by (vm_compute; reflexivity).
  unfold f64_min.
  replace (PrimFloat.is_nan 100) with false by (vm_compute; reflexivity).
  replace (PrimFloat.is_zero 100) with false by (vm_compute; reflexivity).
  cbn [orb andb].
  destruct (PrimFloat.is_nan c) eqn:Enan.
  { left. vm_compute. reflexivity. }
  destruct (PrimFloat.ltb 100 c) eqn:Ebig.
  { right. vm_compute. reflexivity. }
  destruct (PrimFloat.ltb c 100) eqn:Esmall.
  2:{ right. vm_compute. reflexivity. }
  unfold f64_max. rewrite Enan.
  replace (PrimFloat.is_nan zero) with false by (vm_compute; reflexivity).
  replace (PrimFloat.is_zero zero) with true by (vm_compute; reflexivity).
  replace (get_sign zero) with false by (vm_compute; reflexivity).
  cbn [orb andb].
  destruct (PrimFloat.ltb zero c) eqn:Epos.
  - right. unfold f64_between.
    now rewrite (f64_ltb_leb Epos), (f64_ltb_leb Esmall).
  - right. destruct (PrimFloat.ltb c zero); vm_compute; reflexivity.
Qed.

(** On doubles, for every pair of readings: getCPUUsage returns NaN or a
    double in [0,100]. *)
Lemma getCPUUsage_binary64_range (cpusStart cpusEnd : list CpuTimes) :
  PrimFloat.is_nan (getCPUUsage (num := float) cpusStart cpusEnd) = true
  \/ f64_between zero (f64_ofZ 100)
       (getCPUUsage (num := float) cpusStart cpusEnd) = true.
Proof.
  unfold getCPUUsage.
  change (@Math_max float binary64) with f64_max.
  change (@Math_min float binary64) with f64_min.
  replace (@ofZ float binary64 0) with zero by (vm_compute; reflexivity).
  replace (@ofZ float binary64 100) with (f64_ofZ 100)
    by (vm_compute; reflexivity).
  apply f64_clamp_range.
Qed.

(* ================================================================= *)
(** * The parsers on sample outputs *)

(** The two lines of the sample ps output, after the five synthetic
    records. *)
Lemma getProcesses_unix_sample :
  map (fun p => (id p, name p, pid p, cpu p, memory p))
    (skipn 5
       (getProcesses (num := float) false (ExecOk psOutput)
          (clockAt 1700000000000) (fun _ => zero)))
  = [ (1%Z, "firefox", "2211", f64_ofQ (125 # 10), f64_ofZ 31);
      (2%Z, "systemd", "1", zero, f64_ofZ 1) ].
Proof. vm_compute. reflexivity. Qed.

(** The two lines of the sample tasklist output; Math.random() returns 1/2
    at every call. *)
Lemma getProcesses_windows_sample :
  map (fun p => (id p, name p, pid p, cpu p, memory p))
    (skipn 5
       (getProcesses (num := float) true (ExecOk tasklistOutput)
          (clockAt 1700000000000) (fun _ => f64_ofQ (1 # 2))))
  = [ (1%Z, "System Idle Process", "0", f64_ofZ 15, f64_ofZ 500);
      (2%Z, "System", "4", f64_ofZ 15, f64_ofZ 500) ].
Proof. vm_compute. reflexivity. Qed.

(* ================================================================= *)
(** * Further properties of the process collector *)

Lemma consHead_length (c : ascii) (pieces : list string) :
  pieces <> [] -> List.length (consHead c pieces) = List.length pieces.
Proof. destruct pieces; [congruence | reflexivity]. Qed.

Lemma splitFrom_nonempty (sep s : string) (skip : nat) :
  splitFrom sep s skip <> [].
Proof.
  revert skip. induction s as [|c s IH]; intro skip; cbn [splitFrom].
  - discriminate.
  - destruct skip; [|apply IH].
    destruct (String.prefix sep (String c s)); [discriminate|].
    specialize (IH 0%nat). destruct (splitFrom sep s 0); [congruence|discriminate].
Qed.

Lemma prefix_LF (c : ascii) (s : string) :
  String.prefix LF (String c s) = Ascii.eqb LFchar c.
Proof.
  unfold LF. cbn [String.prefix]. fold LFchar.
  destruct (ascii_dec LFchar c) as [E | E].
  - subst c. rewrite Ascii.eqb_refl. now destruct s.
  - symmetry. now apply Ascii.eqb_neq.
Qed.

(** The number of lines of a text is one more than its number of line
    feeds. *)
Lemma split_LF_length (s : string) :
  List.length (split LF s) = S (countChar LFchar s).
Proof.
  unfold split. induction s as [|c s IH]; [reflexivity|].
  cbn [splitFrom countChar]. rewrite prefix_LF.
  destruct (Ascii.eqb LFchar c).
  - change (String.length LF - 1)%nat with 0%nat.
    cbn [List.length]. now rewrite IH.
  - rewrite consHead_length by apply splitFrom_nonempty. exact IH.
Qed.

Section RecordFacts.
Context {num : Type} `{JSNumber num}.

Lemma mapFrom_Forall {A B : Type} (P : B -> Prop) (f : A -> nat -> B) :
  (forall x index, P (f x index)) ->
  forall (l : list A) (k : nat), Forall P (mapFrom f k l).
Proof.
  intros HP l. induction l as [|x l IH]; intro k; cbn; constructor; auto.
Qed.

Lemma Forall_firstn_of {A : Type} (P : A -> Prop) (n : nat) (l : list A) :
  Forall P l -> Forall P (firstn n l).
Proof.
  intro Hl. revert n. induction Hl as [|x l Hx _ IH]; intros [|n]; cbn;
    constructor; auto.
Qed.

Lemma columnOr_nonempty (columns : list string) (i : nat) (dflt : string) :
  dflt <> EmptyString -> columnOr columns i dflt <> EmptyString.
Proof.
  intro Hd. unfold columnOr.
  destruct (nth_error columns i) as [[|c s]|]; [exact Hd | discriminate | exact Hd].
Qed.

Lemma parseUnix_length (stdout : string) :
  List.length (parseUnix (num := num) stdout)
  = countChar LFchar (trim stdout).
Proof.
  unfold parseUnix, mapi. rewrite mapFrom_length, length_skipn, split_LF_length.
  lia.
Qed.

Lemma parseWindows_length_exact (stdout : string) (random : nat -> num) :
  List.length (parseWindows stdout random)
  = Nat.min 15 (S (countChar LFchar (trim stdout))).
Proof.
  unfold parseWindows, mapi.
  now rewrite mapFrom_length, length_firstn, split_LF_length.
Qed.

(** X1.  The size of the list: none after a failed command; after a
    successful one the five synthetic records plus one record per line of
    the trimmed output, the header line not counted on Unix, and at most
    ten of them: between 5 and 15 records in all.  So no cache that the
    server can hold lists more than 15 processes. *)
Theorem getProcesses_count (isWindows : bool) (stdout : string)
    (now : nat -> Z) (random : nat -> num) :
  List.length (getProcesses isWindows (ExecOk stdout) now random)
  = (5 + Nat.min 10
           (countChar LFchar (trim stdout) + (if isWindows then 1 else 0)))%nat
  /\ (5 <= List.length (getProcesses isWindows (ExecOk stdout) now random)
      <= 15)%nat
  /\ (forall c : Cache num,
        reachable c -> (List.length (processes c) <= 15)%nat).
Proof.
  assert (E : forall (w : bool) (out : string) (clock : nat -> Z)
                (rnd : nat -> num),
             List.length (getProcesses w (ExecOk out) clock rnd)
             = (5 + Nat.min 10
                      (countChar LFchar (trim out)
                       + (if w then 1 else 0)))%nat).
  { intros w out clock rnd. unfold getProcesses, parsedProcesses.
    rewrite length_app, length_firstn. cbn [simulatedProcesses List.length].
    destruct w.
    - rewrite parseWindows_length_exact. lia.
    - rewrite parseUnix_length. lia. }
  split; [apply E | split; [rewrite E; lia|]].
  intros c [|env old _]; [cbn; lia|].
  cbn [updateSystemCache processes].
  destruct (env_exec env) as [|out]; [cbn; lia | rewrite E; lia].
Qed.

(** X2.  Every record of every list that getProcesses returns has the
    status Running, a non-empty name and a non-empty pid: a missing or
    empty column is replaced by Unknown or by 0.  So has every record of
    every cache that the server can hold. *)
Theorem getProcesses_records_filled (isWindows : bool) (result : ExecResult)
    (now : nat -> Z) (random : nat -> num) :
  Forall
    (fun p : ProcessRecord num =>
       status p = "Running" /\ name p <> EmptyString /\ pid p <> EmptyString)
    (getProcesses isWindows result now random)
  /\ (forall c : Cache num,
        reachable c ->
        Forall
          (fun p : ProcessRecord num =>
             status p = "Running" /\ name p <> EmptyString
             /\ pid p <> EmptyString)
          (processes c)).
Proof.
  assert (E : forall (w : bool) (res : ExecResult) (clock : nat -> Z)
                (rnd : nat -> num),
             Forall
               (fun p : ProcessRecord num =>
                  status p = "Running" /\ name p <> EmptyString
                  /\ pid p <> EmptyString)
               (getProcesses w res clock rnd)).
  { intros w res clock rnd. destruct res as [|out]; [constructor|].
    unfold getProcesses. apply Forall_app. split.
    - repeat constructor; discriminate.
    - apply Forall_firstn_of.
      unfold parsedProcesses, parseWindows, parseUnix, mapi.
      destruct w; apply mapFrom_Forall; intros line index; cbn;
        (split; [reflexivity | split; apply columnOr_nonempty; discriminate]). }
  split; [apply E|].
  intros c [|env old _]; [constructor | apply E].
Qed.

End RecordFacts.

(* ----------------------------------------------------------------- *)
(** ** The values of the parsed records *)

Lemma f64_orElse_zero_not_nan (a : float) :
  PrimFloat.is_nan (orElse (num := float) a (ofZ 0)) = false.
Proof.
  unfold orElse. change (@ToBoolean float binary64) with f64_truthy.
  unfold f64_truthy.
  destruct (PrimFloat.is_nan a) eqn:Enan; cbn [orb negb].
  - vm_compute. reflexivity.
  - destruct (PrimFloat.is_zero a); cbn [negb];
      [vm_compute; reflexivity | exact Enan].
Qed.

Lemma xnum_orElse_zero_not_nan (a : xnum) :
  orElse (num := xnum) a (ofZ 0) <> XNaN.
Proof.
  unfold orElse. change (@ToBoolean xnum exact) with xtruthy.
  destruct a as [|s|q]; cbn [xtruthy]; try discriminate.
  destruct (negb (Qzero_bool q)); [discriminate|].
  rewrite ofZ_exact. discriminate.
Qed.

(** X3.  On Unix no record of a list returned by getProcesses carries NaN
    in cpu or memory: a column that does not parse as a number gives 0.
    So on doubles, so on the exact instance. *)
Theorem getProcesses_unix_no_nan (result : ExecResult) (now : nat -> Z) :
  (forall random : nat -> float,
     Forall
       (fun p : ProcessRecord float =>
          PrimFloat.is_nan (cpu p) = false
          /\ PrimFloat.is_nan (memory p) = false)
       (getProcesses false result now random))
  /\ (forall random : nat -> xnum,
        Forall
          (fun p : ProcessRecord xnum => cpu p <> XNaN /\ memory p <> XNaN)
          (getProcesses false result now random)).
Proof.
  split; intro random; (destruct result as [|stdout]; [constructor|]);
    unfold getProcesses; apply Forall_app; split.
  - repeat constructor; vm_compute; reflexivity.
  - apply Forall_firstn_of. unfold parsedProcesses, parseUnix, mapi.
    apply mapFrom_Forall. intros line index. cbn [cpu memory].
    split; apply f64_orElse_zero_not_nan.
  - repeat constructor; discriminate.
  - apply Forall_firstn_of. unfold parsedProcesses, parseUnix, mapi.
    apply mapFrom_Forall. intros line index. cbn [cpu memory].
    split; apply xnum_orElse_zero_not_nan.
Qed.




(* ----------------------------------------------------------------- *)
(** ** Blank output *)

Lemma trimStart_allWhiteSpace (s : string) :
  allWhiteSpace s = true -> trimStart s = EmptyString.
Proof.
  induction s as [|c s IH]; cbn; [reflexivity|].
  intro Hs. apply andb_true_iff in Hs. destruct Hs as [Hc Hs].
  rewrite Hc. now apply IH.
Qed.

Lemma trim_allWhiteSpace (s : string) :
  allWhiteSpace s = true -> trim s = EmptyString.
Proof.
  intro Hs. unfold trim. now rewrite trimStart_allWhiteSpace.
Qed.

Section BlankOutput.
Context {num : Type} `{JSNumber num}.
Local Open Scope js_scope.

(** X5.  When the command succeeds with an empty or all-blank output, the
    Unix branch returns the five synthetic records alone, and the Windows
    branch returns them followed by one record made of the empty line: id
    1, name Unknown, pid 0. *)
Theorem getProcesses_blank_output (stdout : string) (now : nat -> Z)
    (random : nat -> num) :
  allWhiteSpace stdout = true ->
  getProcesses false (ExecOk stdout) now random = simulatedProcesses now
  /\ getProcesses true (ExecOk stdout) now random
     = (simulatedProcesses now
        ++ [ {| id := 1; name := "Unknown"; pid := "0";
                cpu := random 0%nat * ofZ 30;
                memory := random 1%nat * ofZ 1000;
                status := "Running" |} ])%list.
Proof.
  intro Hblank. apply trim_allWhiteSpace in Hblank.
  unfold getProcesses, parsedProcesses, parseUnix, parseWindows.
  rewrite Hblank. split; reflexivity.
Qed.

End BlankOutput.

Lemma getProcesses_blank_output_witness :
  getProcesses (num := float) false (ExecOk (LF ++ "  " ++ LF))
    (clockAt 1700000000000) (fun _ => zero)
  = simulatedProcesses (clockAt 1700000000000)
  /\ List.length
       (getProcesses (num := float) true (ExecOk (LF ++ "  " ++ LF))
          (clockAt 1700000000000) (fun _ => zero)) = 6%nat.
Proof.
  destruct (@getProcesses_blank_output float binary64 (LF ++ "  " ++ LF)
              (clockAt 1700000000000) (fun _ => zero) eq_refl)
    as [Hunix Hwindows].
  split; [exact Hunix | now rewrite Hwindows].
Defined.

(* ----------------------------------------------------------------- *)
(** ** Lines and columns *)

Lemma joinWith_cons (sep p : string) (rest : list string) :
  rest <> [] -> joinWith sep (p :: rest) = p ++ sep ++ joinWith sep rest.
Proof. destruct rest; [congruence | reflexivity]. Qed.

Lemma joinWith_consHead (sep : string) (c : ascii) (pieces : list string) :
  pieces <> [] ->
  joinWith sep (consHead c pieces) = String c (joinWith sep pieces).
Proof.
  destruct pieces as [|h [|h' t]]; [congruence | reflexivity | reflexivity].
Qed.

Lemma prefix_dropString (sep s : string) :
  String.prefix sep s = true -> s = sep ++ dropString (String.length sep) s.
Proof.
  revert s. induction sep as [|a sep IH]; intros s Hp.
  - now destruct s.
  - destruct s as [|b s]; [discriminate|]. cbn in Hp.
    destruct (ascii_dec a b) as [<- | _]; [|discriminate].
    cbn. f_equal. now apply IH.
Qed.

Lemma dropString_zero (s : string) : dropString 0 s = s.
Proof. now destruct s. Qed.

Lemma dropString_empty (n : nat) : dropString n EmptyString = EmptyString.
Proof. now destruct n. Qed.

Lemma joinWith_splitFrom (sep s : string) (skip : nat) :
  sep <> EmptyString ->
  joinWith sep (splitFrom sep s skip) = dropString skip s.
Proof.
  intro Hsep. revert skip.
  induction s as [|c s IH]; intro skip.
  - cbn [splitFrom joinWith]. now rewrite dropString_empty.
  - cbn [splitFrom]. destruct skip as [|skip]; [|now rewrite IH].
    destruct (String.prefix sep (String c s)) eqn:Hp.
    + rewrite joinWith_cons by apply splitFrom_nonempty.
      rewrite IH, dropString_zero.
      transitivity (sep ++ dropString (String.length sep) (String c s));
        [| symmetry; exact (prefix_dropString _ _ Hp)].
      destruct sep as [|a sep]; [congruence|].
      cbn [String.length Nat.sub dropString append].
      now rewrite Nat.sub_0_r.
    + rewrite joinWith_consHead by apply splitFrom_nonempty.
      now rewrite IH, dropString_zero.
Qed.

Lemma splitFrom_LF_line (line rest : string) :
  noChar LFchar line = true ->
  splitFrom LF (line ++ LF ++ rest) 0 = line :: splitFrom LF rest 0.
Proof.
  induction line as [|c line IH]; intro Hline.
  - change (EmptyString ++ LF ++ rest) with (String LFchar rest).
    cbn [splitFrom]. rewrite prefix_LF, Ascii.eqb_refl. reflexivity.
  - cbn [noChar] in Hline. apply andb_true_iff in Hline.
    destruct Hline as [Hc Hline].
    change (String c line ++ LF ++ rest) with (String c (line ++ LF ++ rest)).
    cbn [splitFrom]. rewrite prefix_LF.
    apply negb_true_iff in Hc. rewrite Hc, IH by exact Hline. reflexivity.
Qed.

Lemma splitFrom_LF_last (line : string) :
  noChar LFchar line = true -> splitFrom LF line 0 = [line].
Proof.
  induction line as [|c line IH]; intro Hline; [reflexivity|].
  cbn [noChar] in Hline. apply andb_true_iff in Hline.
  destruct Hline as [Hc Hline].
  cbn [splitFrom]. rewrite prefix_LF.
  apply negb_true_iff in Hc. rewrite Hc, IH by exact Hline. reflexivity.
Qed.

Lemma split_LF_joinWith (lines : list string) :
  lines <> [] ->
  Forall (fun line => noChar LFchar line = true) lines ->
  split LF (joinWith LF lines) = lines.
Proof.
  intros Hne Hlines. unfold split.
  induction Hlines as [|line lines Hline Hlines IH]; [congruence|].
  destruct lines as [|line' lines].
  - cbn [joinWith]. now apply splitFrom_LF_last.
  - rewrite joinWith_cons by discriminate.
    rewrite splitFrom_LF_line by exact Hline.
    f_equal. apply IH. discriminate.
Qed.

Lemma consHead_noChar (c d : ascii) (pieces : list string) :
  Ascii.eqb c d = false ->
  Forall (fun p => noChar c p = true) pieces ->
  Forall (fun p => noChar c p = true) (consHead d pieces).
Proof.
  intros Hcd Hp. destruct Hp as [|p pieces Hp Hrest]; cbn [consHead].
  - constructor; [|constructor]. cbn. now rewrite Hcd.
  - constructor; [|exact Hrest]. cbn. now rewrite Hcd, Hp.
Qed.

Lemma split_LF_noChar (s : string) :
  Forall (fun line => noChar LFchar line = true) (split LF s).
Proof.
  unfold split. induction s as [|c s IH].
  - repeat constructor.
  - cbn [splitFrom]. rewrite prefix_LF.
    destruct (Ascii.eqb LFchar c) eqn:Ec.
    + constructor; [reflexivity | exact IH].
    + now apply consHead_noChar.
Qed.

(** X6.  Cutting into lines and into columns loses nothing: the lines of a
    text contain no line feed and, put together again with line feeds,
    give the text back; the columns of a CSV line, put together again
    with the separator, give the line back. *)
Theorem split_loses_nothing (s : string) :
  Forall (fun line => noChar LFchar line = true) (split LF s)
  /\ joinWith LF (split LF s) = s
  /\ joinWith quoteCommaQuote (split quoteCommaQuote s) = s.
Proof.
  split; [apply split_LF_noChar|].
  unfold split. rewrite !joinWith_splitFrom by discriminate.
  now rewrite dropString_zero.
Qed.

(* ================================================================= *)
(** * Further properties of the CPU sampler *)










(* ----------------------------------------------------------------- *)
(** ** No cores *)

Lemma f64_sub_nan_r (x : float) : PrimFloat.sub x nan = nan.
Proof.
  apply Prim2SF_inj. rewrite sub_spec.
  change (Prim2SF nan) with S754_nan.
  unfold SF64sub, SFsub. now destruct (Prim2SF x).
Qed.

Lemma f64_sub_nan_l (x : float) : PrimFloat.sub nan x = nan.
Proof.
  apply Prim2SF_inj. rewrite sub_spec.
  change (Prim2SF nan) with S754_nan. reflexivity.
Qed.

Lemma cpuAverage_no_cores_f64 :
  cpuAverage (num := float) [] = {| m_idle := nan; m_total := nan |}.
Proof. vm_compute. reflexivity. Qed.

Lemma xsub_nan_r (a : xnum) : xsub a XNaN = XNaN.
Proof. now destruct a. Qed.

(** X11.  When os.cpus() returns an empty list at either of the two
    readings, getCPUUsage returns NaN, whatever the other reading.  So on
    doubles, so on the exact instance. *)
Theorem getCPUUsage_no_cores (cpus : list CpuTimes) :
  getCPUUsage (num := float) [] cpus = nan
  /\ getCPUUsage (num := float) cpus [] = nan
  /\ getCPUUsage (num := xnum) [] cpus = XNaN
  /\ getCPUUsage (num := xnum) cpus [] = XNaN.
Proof.
  split; [|split; [|split]].
  - unfold getCPUUsage. rewrite cpuAverage_no_cores_f64. cbn [m_idle m_total].
    change (@nsub float binary64) with PrimFloat.sub.
    rewrite !f64_sub_nan_r. vm_compute. reflexivity.
  - unfold getCPUUsage. rewrite cpuAverage_no_cores_f64. cbn [m_idle m_total].
    change (@nsub float binary64) with PrimFloat.sub.
    rewrite !f64_sub_nan_l. vm_compute. reflexivity.
  - unfold getCPUUsage. rewrite !cpuAverage_exact. cbn [m_idle m_total].
    change (xdiv (XFin (inject_Z (sumIdle []))) (XFin (cores []))) with XNaN.
    change (xdiv (XFin (inject_Z (sumTicks []))) (XFin (cores []))) with XNaN.
    change (@nsub xnum exact) with xsub. rewrite !xsub_nan_r. reflexivity.
  - unfold getCPUUsage. rewrite !cpuAverage_exact. cbn [m_idle m_total].
    change (xdiv (XFin (inject_Z (sumIdle []))) (XFin (cores []))) with XNaN.
    change (xdiv (XFin (inject_Z (sumTicks []))) (XFin (cores []))) with XNaN.
    reflexivity.
Qed.

(* ================================================================= *)
(** * Further properties of the memory reader *)






(* ================================================================= *)
(** * Further properties of the cached routes *)

Section RouteFacts.
Context {num : Type} `{JSNumber num}.

(** X14.  What a read answers with is never older than its threshold: when
    the clock does not run backwards between the test of a read and the
    end of the refresh it triggers, the cache after a usage read is at most
    3000 ms older than the time of the read, and after a processes read at
    most 5000 ms older. *)
Theorem routes_answer_fresh (now : Z) (env : RefreshEnv num) (c : Cache num) :
  (now <= env_lastUpdateNow env)%Z ->
  (now - lastUpdate (fst (apiUsage now env c)) <= 3000)%Z
  /\ ur_data (snd (apiUsage now env c)) = usage (fst (apiUsage now env c))
  /\ (now - lastUpdate (fst (apiProcesses now env c)) <= 5000)%Z
  /\ pr_data (snd (apiProcesses now env c))
     = processes (fst (apiProcesses now env c)).
Proof.
  intro Hclock. unfold apiUsage, apiProcesses. cbn [fst snd ur_data pr_data].
  destruct (Z.gtb_spec (now - lastUpdate c) 3000);
    destruct (Z.gtb_spec (now - lastUpdate c) 5000);
    cbn [updateSystemCache lastUpdate]; repeat split; lia.
Qed.

(** X15.  Reads that follow a read are served from its cache: after any
    usage read, a second usage read within 3000 ms of the cache's
    lastUpdate gets the same answer and a processes read within 5000 ms
    gets the process list of that same cache; neither changes the cache,
    whatever a refresh would have observed. *)
Theorem routes_serve_from_cache (now now' : Z) (env env' : RefreshEnv num)
    (c : Cache num) :
  ((now' - lastUpdate (fst (apiUsage now env c)) <= 3000)%Z ->
   apiUsage now' env' (fst (apiUsage now env c)) = apiUsage now env c)
  /\ ((now' - lastUpdate (fst (apiUsage now env c)) <= 5000)%Z ->
      fst (apiProcesses now' env' (fst (apiUsage now env c)))
      = fst (apiUsage now env c)
      /\ pr_data (snd (apiProcesses now' env' (fst (apiUsage now env c))))
         = processes (fst (apiUsage now env c))).
Proof.
  set (c1 := fst (apiUsage now env c)).
  assert (E : apiUsage now env c
              = (c1, {| ur_success := true; ur_data := usage c1 |}))
    by reflexivity.
  rewrite E. split; intro Hage.
  - unfold apiUsage.
    destruct (Z.gtb_spec (now' - lastUpdate c1) 3000); [lia | reflexivity].
  - unfold apiProcesses.
    destruct (Z.gtb_spec (now' - lastUpdate c1) 5000); [lia|].
    split; reflexivity.
Qed.

End RouteFacts.

Lemma routes_answer_fresh_witness :
  (1700000003100 - lastUpdate
     (fst (apiUsage (num := float) 1700000003100
             (sampleEnv 1700000004100 1700000004100) (cacheAt 1700000000000)))
   <= 3000)%Z.
Proof.
  apply (@routes_answer_fresh float binary64 1700000003100
           (sampleEnv 1700000004100 1700000004100) (cacheAt 1700000000000)).
  cbn. lia.
Defined.

Lemma routes_serve_from_cache_witness :
  apiUsage (num := float) 1700000005000 (sampleEnv 0 0)
    (fst (apiUsage 1700000003100 (sampleEnv 1700000004100 1700000004100)
            (cacheAt 1700000000000)))
  = apiUsage 1700000003100 (sampleEnv 1700000004100 1700000004100)
      (cacheAt 1700000000000).
Proof.
  apply (@routes_serve_from_cache float binary64 1700000003100 1700000005000
           (sampleEnv 1700000004100 1700000004100) (sampleEnv 0 0)
           (cacheAt 1700000000000)).
  cbn. lia.
Defined.

(* ================================================================= *)
(** * The system-info route *)

(** X16.  The system-info route reports the same total memory as the
    memory reader does for the same reading of os.totalmem(), never an
    empty CPU model (Unknown stands in when os.cpus() is empty or the first
    model is the empty string), and as uptime the whole seconds of
    os.uptime() (exact instance for the uptime). *)
Theorem apiSystemInfo_consistent (platform arch hostname : string)
    (cpusForCount cpusForModel : list CpuInfo) (totalmem freemem : Z) :
  (forall (num : Type) (JS : JSNumber num) (uptime : num),
     si_totalMemory
       (apiSystemInfo platform arch hostname uptime cpusForCount cpusForModel
          totalmem)
     = mem_total (getMemoryUsage totalmem freemem)
     /\ si_cpuModel
          (apiSystemInfo platform arch hostname uptime cpusForCount
             cpusForModel totalmem) <> EmptyString
     /\ (cpusForModel = [] ->
         si_cpuModel
           (apiSystemInfo platform arch hostname uptime cpusForCount
              cpusForModel totalmem) = "Unknown"))
  /\ (forall uptime : Q,
        exists seconds : Z,
          si_uptime
            (apiSystemInfo (num := xnum) platform arch hostname (XFin uptime)
               cpusForCount cpusForModel totalmem)
          = XFin (inject_Z seconds)
          /\ inject_Z seconds <= uptime
          /\ uptime < inject_Z seconds + 1).
Proof.
  split.
  - intros num JS uptime. split; [reflexivity | split].
    + cbn [apiSystemInfo si_cpuModel]. unfold firstModelOr.
      destruct cpusForModel as [|cpu rest]; [discriminate|].
      destruct (model cpu); discriminate.
    + intros ->. reflexivity.
  - intro uptime. exists (Qfloor uptime). split; [reflexivity|].
    split; [apply Qfloor_le|].
    pose proof (Qlt_floor uptime) as Hlt. rewrite inject_Z_plus in Hlt.
    exact Hlt.
Qed.

(* ================================================================= *)
(** * Reading a ps listing back *)

Lemma append_assoc_s (a b c : string) : (a ++ b) ++ c = a ++ (b ++ c).
Proof. induction a as [|x a IH]; cbn; [reflexivity | now rewrite IH]. Qed.

Lemma append_empty_r (a : string) : a ++ EmptyString = a.
Proof. induction a as [|x a IH]; cbn; [reflexivity | now rewrite IH]. Qed.

Lemma revString_acc (s acc : string) :
  revString s acc = revString s EmptyString ++ acc.
Proof.
  revert acc. induction s as [|c s IH]; intro acc; cbn; [reflexivity|].
  rewrite (IH (String c acc)), (IH (String c EmptyString)).
  now rewrite append_assoc_s.
Qed.

Lemma revString_app (a b : string) :
  revString (a ++ b) EmptyString
  = revString b EmptyString ++ revString a EmptyString.
Proof.
  induction a as [|c a IH]; cbn.
  - now rewrite append_empty_r.
  - rewrite (revString_acc (a ++ b)), (revString_acc a), IH.
    now rewrite append_assoc_s.
Qed.

Lemma revString_involutive (s : string) :
  revString (revString s EmptyString) EmptyString = s.
Proof.
  induction s as [|c s IH]; cbn; [reflexivity|].
  rewrite (revString_acc s), revString_app, IH. reflexivity.
Qed.

Lemma allWhiteSpace_app (a b : string) :
  allWhiteSpace (a ++ b) = allWhiteSpace a && allWhiteSpace b.
Proof.
  induction a as [|c a IH]; cbn; [reflexivity|].
  now rewrite IH, andb_assoc.
Qed.


Lemma noChar_app (c : ascii) (a b : string) :
  noChar c (a ++ b) = noChar c a && noChar c b.
Proof.
  induction a as [|x a IH]; cbn; [reflexivity|].
  now rewrite IH, andb_assoc.
Qed.

Lemma allWhiteSpace_rev (s : string) :
  allWhiteSpace (revString s EmptyString) = allWhiteSpace s.
Proof.
  induction s as [|c s IH]; cbn; [reflexivity|].
  rewrite revString_acc, allWhiteSpace_app, IH. cbn.
  now rewrite andb_true_r, andb_comm.
Qed.


Lemma trimStart_white_app (w s : string) :
  allWhiteSpace w = true -> trimStart (w ++ s) = trimStart s.
Proof.
  induction w as [|c w IH]; cbn; [reflexivity|].
  intro Hw. apply andb_true_iff in Hw. destruct Hw as [Hc Hw].
  rewrite Hc. now apply IH.
Qed.

Lemma trimStart_startsNonWhite (s : string) :
  startsNonWhite s = true -> trimStart s = s.
Proof.
  destruct s as [|c s]; cbn; [discriminate|].
  intro Hc. apply negb_true_iff in Hc. now rewrite Hc.
Qed.

Lemma startsNonWhite_app (s x : string) :
  startsNonWhite s = true -> startsNonWhite (s ++ x) = true.
Proof. destruct s; [discriminate | trivial]. Qed.

Lemma endsNonWhite_app (x s : string) :
  endsNonWhite s = true -> endsNonWhite (x ++ s) = true.
Proof.
  unfold endsNonWhite. intro Hs. rewrite revString_app.
  now apply startsNonWhite_app.
Qed.

(** Trimming strips the white space around a text that begins and ends
    with other characters, and nothing else. *)
Lemma trim_core (lead s trail : string) :
  allWhiteSpace lead = true -> allWhiteSpace trail = true ->
  startsNonWhite s = true -> endsNonWhite s = true ->
  trim (lead ++ s ++ trail) = s.
Proof.
  intros Hlead Htrail Hstart Hend. unfold trim.
  rewrite trimStart_white_app by exact Hlead.
  rewrite trimStart_startsNonWhite by now apply startsNonWhite_app.
  unfold trimEnd. rewrite revString_app.
  rewrite trimStart_white_app by now rewrite allWhiteSpace_rev.
  rewrite trimStart_startsNonWhite by exact Hend.
  apply revString_involutive.
Qed.







Lemma splitSpacesFrom_nonempty (s : string) (inSpace : bool) :
  splitSpacesFrom s inSpace <> [].
Proof.
  revert inSpace. induction s as [|c s IH]; intro inSpace; cbn.
  - discriminate.
  - destruct (isWhiteSpace c).
    + destruct inSpace; [apply IH | discriminate].
    + specialize (IH false). destruct (splitSpacesFrom s false);
        [congruence | discriminate].
Qed.









Lemma isPadding_parts (g : string) :
  isPadding g = true -> allWhiteSpace g = true /\ noChar LFchar g = true.
Proof. unfold isPadding. intro Hg. now apply andb_true_iff in Hg. Qed.






Lemma joinWith_LF_endsNonWhite_last (lines : list string) :
  endsNonWhite (last lines EmptyString) = true ->
  endsNonWhite (joinWith LF lines) = true.
Proof.
  induction lines as [|l [|l' lines] IH]; intro Hlast;
    [discriminate | exact Hlast |].
  rewrite joinWith_cons by discriminate.
  apply endsNonWhite_app, endsNonWhite_app, IH. exact Hlast.
Qed.







Section ReadingPs.
Context {num : Type} `{JSNumber num}.



End ReadingPs.







(* ================================================================= *)
(** * Reading a tasklist listing back *)

Lemma prefix_cons (a b : ascii) (s1 s2 : string) :
  String.prefix (String a s1) (String b s2)
  = Ascii.eqb a b && String.prefix s1 s2.
Proof.
  cbn [String.prefix]. destruct (ascii_dec a b) as [E | E].
  - subst b. now rewrite Ascii.eqb_refl.
  - apply Ascii.eqb_neq in E. now rewrite E.
Qed.

Lemma noChar_head (c d : ascii) (s : string) :
  noChar c (String d s) = true -> Ascii.eqb c d = false /\ noChar c s = true.
Proof.
  cbn. intro Hs. apply andb_true_iff in Hs. destruct Hs as [Hd Hs].
  apply negb_true_iff in Hd. auto.
Qed.

Lemma splitFrom_csv_plain (x : string) :
  noChar quoteChar x = true -> splitFrom quoteCommaQuote x 0 = [x].
Proof.
  induction x as [|c x IH]; intro Hx; [reflexivity|].
  apply noChar_head in Hx. destruct Hx as [Hc Hx].
  cbn [splitFrom]. unfold quoteCommaQuote at 1.
  rewrite prefix_cons, Hc. cbn [andb]. now rewrite IH.
Qed.

Lemma splitFrom_csv_field (f rest : string) :
  noChar quoteChar f = true ->
  splitFrom quoteCommaQuote (f ++ quoteCommaQuote ++ rest) 0
  = f :: splitFrom quoteCommaQuote rest 0.
Proof.
  induction f as [|c f IH]; intro Hf.
  - cbn [append]. unfold quoteCommaQuote at 2. cbn [append splitFrom].
    unfold quoteCommaQuote at 1. rewrite !prefix_cons, !Ascii.eqb_refl.
    cbn [andb String.prefix]. 
    replace (String.prefix EmptyString rest) with true by now destruct rest.
    reflexivity.
  - apply noChar_head in Hf. destruct Hf as [Hc Hf].
    cbn [append splitFrom]. unfold quoteCommaQuote at 1.
    rewrite prefix_cons, Hc. cbn [andb]. now rewrite IH.
Qed.

Lemma allWhiteSpace_noQuote (t : string) :
  allWhiteSpace t = true -> noChar quoteChar t = true.
Proof.
  induction t as [|c t IH]; cbn [allWhiteSpace noChar]; [reflexivity|].
  intro Ht. apply andb_true_iff in Ht. destruct Ht as [Hc Ht].
  rewrite IH by exact Ht. rewrite andb_true_r.
  apply negb_true_iff, Ascii.eqb_neq. intros <-. vm_compute in Hc.
  discriminate.
Qed.

Lemma splitFrom_csv_closing (f t : string) :
  noChar quoteChar f = true -> allWhiteSpace t = true ->
  splitFrom quoteCommaQuote (f ++ dq ++ t) 0 = [f ++ dq ++ t].
Proof.
  intros Hf Ht. induction f as [|c f IH].
  - cbn [append]. unfold dq. cbn [append splitFrom].
    unfold quoteCommaQuote at 1.
    assert (Hp : String.prefix
                   (String quoteChar
                      (String "," (String quoteChar EmptyString)))
                   (String quoteChar t) = false).
    { rewrite prefix_cons, Ascii.eqb_refl. cbn [andb].
      destruct t as [|c t]; [reflexivity|].
      rewrite prefix_cons. cbn in Ht. apply andb_true_iff in Ht.
      destruct Ht as [Hc _].
      destruct (Ascii.eqb "," c) eqn:Ec; [|reflexivity].
      apply Ascii.eqb_eq in Ec. subst c. vm_compute in Hc. discriminate. }
    rewrite Hp. rewrite splitFrom_csv_plain by now apply allWhiteSpace_noQuote.
    reflexivity.
  - apply noChar_head in Hf. destruct Hf as [Hc Hf].
    cbn [append splitFrom]. unfold quoteCommaQuote at 1.
    rewrite prefix_cons, Hc. cbn [andb]. now rewrite IH.
Qed.

Lemma isField_parts (f : string) :
  isField f = true -> noChar quoteChar f = true /\ noChar LFchar f = true.
Proof. unfold isField. intro Hf. now apply andb_true_iff in Hf. Qed.

Lemma splitFrom_csv_fields (f : string) (fs : list string) (t : string) :
  forallb isField (f :: fs) = true -> allWhiteSpace t = true ->
  splitFrom quoteCommaQuote
    (joinWith quoteCommaQuote (f :: fs) ++ dq ++ t) 0
  = closeLast (dq ++ t) (f :: fs).
Proof.
  intros Hfs Ht. revert f Hfs.
  induction fs as [|g fs IH]; intros f Hfs.
  - cbn in Hfs. rewrite andb_true_r in Hfs.
    apply isField_parts in Hfs. destruct Hfs as [Hf _].
    cbn [joinWith closeLast]. now apply splitFrom_csv_closing.
  - cbn [forallb] in Hfs. apply andb_true_iff in Hfs.
    destruct Hfs as [Hf Hfs].
    apply isField_parts in Hf. destruct Hf as [Hf _].
    rewrite joinWith_cons by discriminate.
    rewrite !append_assoc_s, splitFrom_csv_field by exact Hf.
    change (closeLast (dq ++ t) (f :: g :: fs))
      with (f :: closeLast (dq ++ t) (g :: fs)).
    f_equal. now apply IH.
Qed.

(** The opening quote of a row does not begin a separator, unless the
    first field is a lone comma. *)
Lemma prefix_csv_opening (f0 rest : string) :
  noChar quoteChar f0 = true -> f0 <> "," ->
  String.prefix quoteCommaQuote
    (String quoteChar (f0 ++ quoteCommaQuote ++ rest)) = false.
Proof.
  intros Hf Hcomma. unfold quoteCommaQuote at 1.
  rewrite prefix_cons, Ascii.eqb_refl. cbn [andb].
  destruct f0 as [|a f0].
  - cbn [append]. unfold quoteCommaQuote. cbn [append]. rewrite prefix_cons.
    reflexivity.
  - cbn [append]. rewrite prefix_cons.
    destruct (Ascii.eqb "," a) eqn:Ea; [|reflexivity]. cbn [andb].
    apply Ascii.eqb_eq in Ea. subst a.
    destruct f0 as [|b f0]; [congruence|].
    apply noChar_head in Hf. destruct Hf as [_ Hf].
    apply noChar_head in Hf. destruct Hf as [Hb _].
    cbn [append]. rewrite prefix_cons, Hb. reflexivity.
Qed.

Lemma removeQuotes_plain (f : string) :
  noChar quoteChar f = true -> removeQuotes f = f.
Proof.
  induction f as [|c f IH]; intro Hf; [reflexivity|].
  apply noChar_head in Hf. destruct Hf as [Hc Hf].
  cbn [removeQuotes]. rewrite Ascii.eqb_sym, Hc. now rewrite IH.
Qed.

(** The first two columns of a line holding a CSV row, followed by white
    space or not, are the first two fields of the row. *)
Lemma csvRow_columns (fields : list string) (t : string) :
  isCsvRow fields = true -> allWhiteSpace t = true ->
  exists others : list string,
    map removeQuotes (split quoteCommaQuote (csvRowText fields ++ t))
    = nth 0 fields EmptyString :: nth 1 fields EmptyString :: others.
Proof.
  intros Hrow Ht.
  destruct fields as [|f0 [|f1 [|f2 fs]]]; try discriminate.
  unfold isCsvRow in Hrow. apply andb_true_iff in Hrow.
  destruct Hrow as [Hcomma Hfs].
  apply negb_true_iff, String.eqb_neq in Hcomma.
  pose proof Hfs as Hall.
  cbn [forallb] in Hfs. apply andb_true_iff in Hfs. destruct Hfs as [Hf0 Hfs].
  apply andb_true_iff in Hfs. destruct Hfs as [Hf1 _].
  apply isField_parts in Hf0. destruct Hf0 as [Hf0 _].
  apply isField_parts in Hf1. destruct Hf1 as [Hf1 _].
  unfold csvRowText, split.
  rewrite !append_assoc_s.
  change (dq ++ joinWith quoteCommaQuote (f0 :: f1 :: f2 :: fs) ++ dq ++ t)
    with (String quoteChar
            (joinWith quoteCommaQuote (f0 :: f1 :: f2 :: fs) ++ dq ++ t)).
  cbn [splitFrom].
  assert (Hp : String.prefix quoteCommaQuote
                 (String quoteChar
                    (joinWith quoteCommaQuote (f0 :: f1 :: f2 :: fs)
                     ++ dq ++ t)) = false).
  { rewrite joinWith_cons by discriminate. rewrite !append_assoc_s.
    now apply prefix_csv_opening. }
  rewrite Hp, splitFrom_csv_fields by assumption.
  cbn [closeLast consHead map nth].
  exists (map removeQuotes (closeLast (dq ++ t) (f2 :: fs))).
  rewrite (removeQuotes_plain f1 Hf1).
  cbn [removeQuotes]. rewrite Ascii.eqb_refl.
  now rewrite (removeQuotes_plain f0 Hf0).
Qed.

Lemma withTails_nonempty (tail : string) (lines : list string) :
  lines <> [] -> withTails tail lines <> [].
Proof. destruct lines as [|l [|l' lines]]; [congruence | discriminate ..]. Qed.

Lemma joinWith_tail (tail : string) (lines : list string) :
  joinWith (tail ++ LF) lines = joinWith LF (withTails tail lines).
Proof.
  induction lines as [|l [|l' lines] IH]; [reflexivity | reflexivity|].
  rewrite joinWith_cons by discriminate.
  change (withTails tail (l :: l' :: lines))
    with ((l ++ tail) :: withTails tail (l' :: lines)).
  rewrite (@joinWith_cons LF (l ++ tail) (withTails tail (l' :: lines)))
    by (apply withTails_nonempty; discriminate).
  now rewrite IH, !append_assoc_s.
Qed.

Lemma withTails_last (tail : string) (lines : list string) :
  last (withTails tail lines) EmptyString = last lines EmptyString.
Proof.
  induction lines as [|l [|l' lines] IH]; [reflexivity | reflexivity|].
  change (withTails tail (l :: l' :: lines))
    with ((l ++ tail) :: withTails tail (l' :: lines)).
  change (last (l :: l' :: lines) EmptyString)
    with (last (l' :: lines) EmptyString).
  rewrite <- IH. cbn [last].
  destruct (withTails tail (l' :: lines)) eqn:E; [|reflexivity].
  exfalso. revert E. apply withTails_nonempty. discriminate.
Qed.

Lemma csvRowText_endsNonWhite (fields : list string) :
  endsNonWhite (csvRowText fields) = true.
Proof.
  unfold csvRowText. now apply endsNonWhite_app, endsNonWhite_app.
Qed.

Lemma joinWith_noChar (c : ascii) (sep : string) (pieces : list string) :
  noChar c sep = true ->
  forallb (noChar c) pieces = true ->
  noChar c (joinWith sep pieces) = true.
Proof.
  intros Hsep. induction pieces as [|p [|p' pieces] IH]; intro Hp;
    [reflexivity | cbn in Hp; now rewrite andb_true_r in Hp |].
  rewrite joinWith_cons by discriminate.
  cbn [forallb] in Hp. apply andb_true_iff in Hp. destruct Hp as [Hp Hrest].
  now rewrite !noChar_app, Hp, Hsep, IH.
Qed.

Lemma isCsvRow_fields (fields : list string) :
  isCsvRow fields = true -> forallb isField fields = true.
Proof.
  destruct fields as [|f0 [|f1 [|f2 fs]]]; try discriminate.
  unfold isCsvRow. intro Hrow. now apply andb_true_iff in Hrow.
Qed.

Lemma csvRowText_noLF (fields : list string) :
  isCsvRow fields = true -> noChar LFchar (csvRowText fields) = true.
Proof.
  intro Hrow. apply isCsvRow_fields in Hrow.
  unfold csvRowText. rewrite !noChar_app.
  rewrite joinWith_noChar; [reflexivity | reflexivity |].
  rewrite forallb_forall in *. intros f Hf.
  now apply isField_parts, Hrow.
Qed.

Lemma csvRow_columnOr (fields : list string) (t dflt : string) :
  isCsvRow fields = true -> allWhiteSpace t = true ->
  columnOr
    (map removeQuotes (split quoteCommaQuote (csvRowText fields ++ t))) 0 dflt
  = columnOr fields 0 dflt
  /\ columnOr
       (map removeQuotes (split quoteCommaQuote (csvRowText fields ++ t))) 1
       dflt
     = columnOr fields 1 dflt.
Proof.
  intros Hrow Ht.
  destruct (csvRow_columns fields t Hrow Ht) as [others E]. rewrite E.
  destruct fields as [|f0 [|f1 [|f2 fs]]]; try discriminate.
  split; reflexivity.
Qed.

Lemma firstn_mapFrom {A B : Type} (f : A -> nat -> B) (n : nat) (l : list A)
    (k : nat) :
  firstn n (mapFrom f k l) = mapFrom f k (firstn n l).
Proof.
  revert l k. induction n as [|n IH]; intros [|x l] k; cbn; try reflexivity.
  now rewrite IH.
Qed.

Lemma withTails_cons (tail l l' : string) (lines : list string) :
  withTails tail (l :: l' :: lines)
  = (l ++ tail) :: withTails tail (l' :: lines).
Proof. reflexivity. Qed.

Lemma csvLines_noLF (tail : string) (rows : list (list string)) :
  isPadding tail = true -> forallb isCsvRow rows = true ->
  Forall (fun line => noChar LFchar line = true)
    (withTails tail (map csvRowText rows)).
Proof.
  intros Htail. apply isPadding_parts in Htail. destruct Htail as [_ Htail].
  induction rows as [|r [|r' rows] IH]; intro Hrows.
  - constructor.
  - cbn in Hrows. rewrite andb_true_r in Hrows.
    constructor; [now apply csvRowText_noLF | constructor].
  - cbn [forallb] in Hrows. apply andb_true_iff in Hrows.
    destruct Hrows as [Hr Hrows].
    cbn [map]. rewrite withTails_cons. constructor.
    + now rewrite noChar_app, csvRowText_noLF, Htail.
    + now apply IH.
Qed.

Lemma csvLines_last (rows : list (list string)) :
  rows <> [] ->
  endsNonWhite (last (map csvRowText rows) EmptyString) = true.
Proof.
  induction rows as [|r [|r' rows] IH]; intro Hne; [congruence | |].
  - apply csvRowText_endsNonWhite.
  - change (last (map csvRowText (r :: r' :: rows)) EmptyString)
      with (last (map csvRowText (r' :: rows)) EmptyString).
    apply IH. discriminate.
Qed.

Lemma csvLines_start (tail : string) (rows : list (list string)) :
  rows <> [] ->
  startsNonWhite (joinWith LF (withTails tail (map csvRowText rows))) = true.
Proof.
  destruct rows as [|r [|r' rows]]; intro Hne; [congruence | reflexivity |].
  cbn [map]. rewrite withTails_cons.
  rewrite joinWith_cons by (apply withTails_nonempty; discriminate).
  reflexivity.
Qed.

Lemma csvListing_lines (lead tail : string) (rows : list (list string))
    (trail : string) :
  allWhiteSpace lead = true -> allWhiteSpace trail = true ->
  isPadding tail = true -> rows <> [] -> forallb isCsvRow rows = true ->
  split LF (trim (csvListing lead tail rows trail))
  = withTails tail (map csvRowText rows).
Proof.
  intros Hlead Htrail Htail Hne Hrows.
  unfold csvListing. rewrite joinWith_tail, trim_core; try assumption.
  - apply split_LF_joinWith.
    + apply withTails_nonempty. destruct rows; [congruence | discriminate].
    + now apply csvLines_noLF.
  - now apply csvLines_start.
  - apply joinWith_LF_endsNonWhite_last. rewrite withTails_last.
    now apply csvLines_last.
Qed.

Section ReadingTasklist.
Context {num : Type} `{JSNumber num}.
Local Open Scope js_scope.

Lemma windows_line_record (random : nat -> num) (fields : list string)
    (t : string) (index : nat) :
  isCsvRow fields = true -> allWhiteSpace t = true ->
  {| id := Z.of_nat index + 1;
     name :=
       columnOr
         (map removeQuotes (split quoteCommaQuote (csvRowText fields ++ t)))
         0 "Unknown";
     pid :=
       columnOr
         (map removeQuotes (split quoteCommaQuote (csvRowText fields ++ t)))
         1 "0";
     cpu := random (2 * index)%nat * ofZ 30;
     memory := random (2 * index + 1)%nat * ofZ 1000;
     status := "Running" |}
  = windowsRecordOf random fields index.
Proof.
  intros Hrow Ht. unfold windowsRecordOf.
  destruct (csvRow_columnOr fields t "Unknown" Hrow Ht) as [E0 _].
  destruct (csvRow_columnOr fields t "0" Hrow Ht) as [_ E1].
  now rewrite E0, E1.
Qed.

Lemma windows_lines_records (random : nat -> num) (tail : string)
    (rows : list (list string)) (k : nat) :
  isPadding tail = true -> forallb isCsvRow rows = true ->
  mapFrom
    (fun line index =>
       let columns := map removeQuotes (split quoteCommaQuote line) in
       {| id := Z.of_nat index + 1;
          name := columnOr columns 0 "Unknown";
          pid := columnOr columns 1 "0";
          cpu := random (2 * index)%nat * ofZ 30;
          memory := random (2 * index + 1)%nat * ofZ 1000;
          status := "Running" |})
    k (withTails tail (map csvRowText rows))
  = mapFrom (windowsRecordOf random) k rows.
Proof.
  intros Htail. apply isPadding_parts in Htail. destruct Htail as [Htail _].
  revert k. induction rows as [|r [|r' rows] IH]; intros k Hrows.
  - reflexivity.
  - cbn in Hrows. rewrite andb_true_r in Hrows.
    cbn [map withTails mapFrom]. cbv zeta. f_equal.
    rewrite <- (append_empty_r (csvRowText r)).
    now apply windows_line_record.
  - cbn [forallb] in Hrows. apply andb_true_iff in Hrows.
    destruct Hrows as [Hr Hrows].
    cbn [map]. rewrite withTails_cons.
    change (mapFrom (windowsRecordOf random) k (r :: r' :: rows))
      with (windowsRecordOf random r k
            :: mapFrom (windowsRecordOf random) (S k) (r' :: rows)).
    rewrite <- IH by exact Hrows.
    cbn [mapFrom map]. cbv zeta. f_equal.
    now apply windows_line_record.
Qed.

(** X19.  A tasklist listing is read back row by row: for a listing made
    of rows of at least three quoted fields (without quotes or line feeds
    in them, the first field not a lone comma), the lines ended by a line
    feed or by carriage return and line feed, getProcesses returns after
    the five synthetic records one record per row, for the first ten rows
    in order, with the name from the first field and the pid from the
    second. *)
Theorem getProcesses_reads_tasklist_listing (lead tail : string)
    (rows : list (list string)) (trail : string) (now : nat -> Z)
    (random : nat -> num) :
  allWhiteSpace lead = true -> allWhiteSpace trail = true ->
  isPadding tail = true -> rows <> [] -> forallb isCsvRow rows = true ->
  getProcesses true (ExecOk (csvListing lead tail rows trail)) now random
  = (simulatedProcesses now
     ++ firstn 10 (mapi (windowsRecordOf random) rows))%list.
Proof.
  intros Hlead Htrail Htail Hne Hrows.
  unfold getProcesses, parsedProcesses, parseWindows, mapi.
  rewrite csvListing_lines by assumption.
  f_equal.
  rewrite firstn_mapFrom, firstn_firstn. change (Nat.min 10 15) with 10%nat.
  rewrite <- firstn_mapFrom.
  now rewrite windows_lines_records.
Qed.

End ReadingTasklist.

Lemma getProcesses_reads_tasklist_listing_witness :
  csvListing EmptyString (String (ascii_of_nat 13) EmptyString)
    [ ["System Idle Process"; "0"; "Services"; "0"; "8 K"];
      ["System"; "4"; "Services"; "0"; "152 K"] ]
    CRLF
  = tasklistOutput
  /\ skipn 5
       (getProcesses (num := float) true (ExecOk tasklistOutput)
          (clockAt 1700000000000) (fun _ => zero))
     = [ windowsRecordOf (fun _ => zero)
           ["System Idle Process"; "0"; "Services"; "0"; "8 K"] 0;
         windowsRecordOf (fun _ => zero)
           ["System"; "4"; "Services"; "0"; "152 K"] 1 ].
Proof.
  split; [reflexivity|].
  change tasklistOutput
    with (csvListing EmptyString (String (ascii_of_nat 13) EmptyString)
            [ ["System Idle Process"; "0"; "Services"; "0"; "8 K"];
              ["System"; "4"; "Services"; "0"; "152 K"] ]
            CRLF).
  rewrite (@getProcesses_reads_tasklist_listing float binary64);
    (reflexivity || discriminate).
Defined.

(* ================================================================= *)
(** * Reading a decimal numeral *)

Lemma digitChar_facts (d : nat) (s : string) :
  (d < 10)%nat ->
  digitOf (digitChar d) = Some (Z.of_nat d)
  /\ isWhiteSpace (digitChar d) = false
  /\ readSign (String (digitChar d) s) = (false, String (digitChar d) s)
  /\ String.prefix "Infinity" (String (digitChar d) s) = false.
Proof.
  intro Hd.
  do 10 (destruct d as [|d]; [repeat split; reflexivity|]). lia.
Qed.

Lemma allDigits_cons (d : nat) (ds : list nat) :
  allDigits (d :: ds) = true -> (d < 10)%nat /\ allDigits ds = true.
Proof.
  unfold allDigits. cbn [forallb]. intro Hds.
  apply andb_true_iff in Hds. destruct Hds as [Hd Hds].
  apply Nat.ltb_lt in Hd. auto.
Qed.

Lemma readDigits_digitsText (ds : list nat) (acc : Z) (count : nat) :
  allDigits ds = true ->
  readDigits (digitsText ds) acc count
  = (digitsValue acc ds, (count + List.length ds)%nat, EmptyString).
Proof.
  revert acc count. induction ds as [|d ds IH]; intros acc count Hds.
  - cbn. now rewrite Nat.add_0_r.
  - apply allDigits_cons in Hds. destruct Hds as [Hd Hds].
    cbn [digitsText readDigits digitsValue List.length].
    destruct (digitChar_facts EmptyString Hd) as [Edigit _].
    rewrite Edigit, IH by exact Hds. f_equal. f_equal. lia.
Qed.

Lemma readDigits_digitsText_dot (ds : list nat) (acc : Z) (count : nat)
    (rest : string) :
  allDigits ds = true ->
  readDigits (digitsText ds ++ String "." rest) acc count
  = (digitsValue acc ds, (count + List.length ds)%nat, String "." rest).
Proof.
  revert acc count. induction ds as [|d ds IH]; intros acc count Hds.
  - cbn. now rewrite Nat.add_0_r.
  - apply allDigits_cons in Hds. destruct Hds as [Hd Hds].
    cbn [digitsText readDigits digitsValue List.length append].
    destruct (digitChar_facts EmptyString Hd) as [Edigit _].
    rewrite Edigit, IH by exact Hds. f_equal. f_equal. lia.
Qed.

Lemma digitsValue_app (acc : Z) (ds es : list nat) :
  digitsValue acc (ds ++ es) = digitsValue (digitsValue acc ds) es.
Proof.
  revert acc. induction ds as [|d ds IH]; intro acc; cbn; [reflexivity|].
  apply IH.
Qed.

Lemma digitsValue_shift (acc : Z) (ds : list nat) :
  digitsValue acc ds
  = (acc * 10 ^ Z.of_nat (List.length ds) + digitsValue 0 ds)%Z.
Proof.
  revert acc. induction ds as [|d ds IH]; intro acc.
  - cbn. lia.
  - cbn [digitsValue List.length]. rewrite IH, (IH (10 * 0 + Z.of_nat d)%Z).
    rewrite Nat2Z.inj_succ, Z.pow_succ_r by lia. ring.
Qed.

Lemma parseDecimal_numeral (intDigits fracDigits : list nat) :
  intDigits <> [] ->
  allDigits intDigits = true -> allDigits fracDigits = true ->
  parseDecimal (digitsText intDigits ++ String "." (digitsText fracDigits))
  = ParsedDecimal false
      (decimalQ (digitsValue 0 (intDigits ++ fracDigits))
         (- Z.of_nat (List.length fracDigits))).
Proof.
  intros Hne Hint Hfrac.
  destruct intDigits as [|d ds]; [congruence|].
  pose proof Hint as Hint'.
  apply allDigits_cons in Hint'. destruct Hint' as [Hd _].
  unfold parseDecimal.
  destruct (digitChar_facts
              (digitsText ds ++ String "." (digitsText fracDigits)) Hd)
    as [_ [Hws [Hsign Hinf]]].
  change (digitsText (d :: ds) ++ String "." (digitsText fracDigits))
    with (String (digitChar d)
            (digitsText ds ++ String "." (digitsText fracDigits))).
  cbn [trimStart]. rewrite Hws, Hsign, Hinf.
  change (String (digitChar d)
            (digitsText ds ++ String "." (digitsText fracDigits)))
    with (digitsText (d :: ds) ++ String "." (digitsText fracDigits)).
  rewrite readDigits_digitsText_dot by exact Hint.
  rewrite readDigits_digitsText by exact Hfrac.
  cbn [List.length Nat.add readExponent].
  rewrite digitsValue_app. reflexivity.
Qed.

Lemma decimalQ_value (m : Z) (k : nat) :
  decimalQ m (- Z.of_nat k) == inject_Z m / inject_Z (10 ^ Z.of_nat k).
Proof.
  unfold decimalQ. destruct k as [|k].
  - cbn. unfold Qeq. cbn. lia.
  - rewrite Nat2Z.inj_succ. 
    assert (E : (- Z.succ (Z.of_nat k))%Z = Zneg (Pos.of_succ_nat k)) by lia.
    rewrite E.
    assert (Ep : (10 ^ Z.succ (Z.of_nat k))%Z
                 = Zpos (10 ^ Pos.of_succ_nat k)).
    { rewrite Pos2Z.inj_pow. f_equal. lia. }
    rewrite Ep. unfold Qdiv, Qinv, Qmult, Qeq, inject_Z. cbn. lia.
Qed.

Section ReadingNumerals.
Context {num : Type} `{JSNumber num}.

(** X20.  A column that holds a decimal numeral, digits, a point, digits,
    is read by parseFloat as the literal of that numeral: the number whose
    integer part the digits before the point denote and whose fraction the
    digits after it, rounded into the number format as a literal is. *)
Theorem parseFloat_numeral (intDigits fracDigits : list nat) :
  intDigits <> [] ->
  allDigits intDigits = true -> allDigits fracDigits = true ->
  exists q : Q,
    parseFloat (num := num)
      (Some (digitsText intDigits ++ String "." (digitsText fracDigits)))
    = ofQ q
    /\ q == inject_Z (digitsValue 0 intDigits)
            + inject_Z (digitsValue 0 fracDigits)
              / inject_Z (10 ^ Z.of_nat (List.length fracDigits)).
Proof.
  intros Hne Hint Hfrac.
  exists (decimalQ (digitsValue 0 (intDigits ++ fracDigits))
            (- Z.of_nat (List.length fracDigits))).
  split.
  - unfold parseFloat. now rewrite parseDecimal_numeral.
  - rewrite decimalQ_value, digitsValue_app, digitsValue_shift.
    rewrite inject_Z_plus, inject_Z_mult.
    field. change 0 with (inject_Z 0). rewrite inject_Z_injective.
    apply Z.pow_nonzero; lia.
Qed.

End ReadingNumerals.

Lemma parseFloat_numeral_witness :
  exists q : Q,
    parseFloat (num := xnum) (Some "12.5") = ofQ q
    /\ q == inject_Z 12 + inject_Z 5 / inject_Z (10 ^ 1).
Proof.
  apply (@parseFloat_numeral xnum exact [1; 2]%nat [5]%nat);
    (discriminate || reflexivity).
Defined.

(* ================================================================= *)
(** * What the cache holds *)

(** X21.  On doubles, the cpu of the usage record of every cache that the
    server can hold is NaN or a number in [0,100]: the initial 0, or what
    the clamp of getCPUUsage let through. *)
Theorem cache_cpu_range (c : Cache float) :
  reachable c ->
  PrimFloat.is_nan (u_cpu (usage c)) = true
  \/ f64_between zero (f64_ofZ 100) (u_cpu (usage c)) = true.
Proof.
  intros [|env old _].
  - right. vm_compute. reflexivity.
  - cbn [updateSystemCache usage u_cpu]. apply getCPUUsage_binary64_range.
Qed.

Lemma cache_cpu_range_witness :
  PrimFloat.is_nan (u_cpu (usage (cacheAt 1700000000000))) = true
  \/ f64_between zero (f64_ofZ 100) (u_cpu (usage (cacheAt 1700000000000)))
     = true.
Proof.
  apply cache_cpu_range. apply reach_update, reach_init.
Defined.
